(** * obsidian-social-share: pagination, word wrap and page rendering

    A shallow embedding of [src/main.ts] (class [MyPlugin]): the front-matter
    stripping and the batch driver of [generateRedNoteImages], the paginator
    [splitContentIntoPages], the page renderer [generateSinglePageImage] and
    the word wrap [wrapText], followed by the properties of the specification
    that concern them. *)

From Stdlib Require Import Ascii String.
From Stdlib Require Import List Bool Arith ZArith NArith QArith Qround Lia.
From Stdlib Require DecimalZ.
Import ListNotations.

Local Open Scope Z_scope.
Local Open Scope list_scope.

(* ================================================================== *)
(** ** JavaScript strings *)
(* ================================================================== *)

(** A JavaScript string is a sequence of UTF-16 code units.  All the string
    operations of the source ([split], [trim], [===], [+], the regular
    expression) work on code units, so this is the level they are modelled
    at. *)
Module JS.

Definition jsstring : Type := list N.

(** A literal of the source that only holds ASCII characters. *)
Definition str (s : String.string) : jsstring :=
  map N_of_ascii (list_ascii_of_string s).

(** [a === b] on strings: the same sequence of code units. *)
Fixpoint strictEq (a b : jsstring) : bool :=
  match a, b with
  | [], [] => true
  | x :: a', y :: b' => (x =? y)%N && strictEq a' b'
  | _, _ => false
  end.

(** A string is truthy when it is not the empty string. *)
Definition truthy (s : jsstring) : bool :=
  match s with
  | [] => false
  | _ :: _ => true
  end.

(** [s.split(sep)] for a separator of one code unit: the pieces between
    the occurrences of [sep]; the empty string gives one empty piece. *)
Fixpoint split (sep : N) (s : jsstring) : list jsstring :=
  match s with
  | [] => [[]]
  | c :: s' =>
      if (c =? sep)%N then [] :: split sep s'
      else match split sep s' with
           | w :: ws => (c :: w) :: ws
           | [] => [[c]]
           end
  end.

(** [pieces.join(sep)], the inverse of [split]. *)
Fixpoint join (sep : N) (pieces : list jsstring) : jsstring :=
  match pieces with
  | [] => []
  | [w] => w
  | w :: ws => w ++ sep :: join sep ws
  end.

(** ECMAScript [WhiteSpace]: TAB, VT, FF, SP, NBSP, ZWNBSP and the code
    points of category Zs (all of them in the basic plane). *)
Definition isWhiteSpace (c : N) : bool :=
  ((c =? 9) || (c =? 11) || (c =? 12) || (c =? 32) || (c =? 160)
   || (c =? 5760) || ((8192 <=? c) && (c <=? 8202))
   || (c =? 8239) || (c =? 8287) || (c =? 12288) || (c =? 65279))%N.

(** ECMAScript [LineTerminator]: LF, CR, LS, PS. *)
Definition isLineTerminator (c : N) : bool :=
  ((c =? 10) || (c =? 13) || (c =? 8232) || (c =? 8233))%N.

(** What [trim] removes at both ends. *)
Definition isTrimmable (c : N) : bool :=
  isWhiteSpace c || isLineTerminator c.

Fixpoint trimStart (s : jsstring) : jsstring :=
  match s with
  | [] => []
  | c :: s' => if isTrimmable c then trimStart s' else s
  end.

Definition trimEnd (s : jsstring) : jsstring :=
  rev (trimStart (rev s)).

(** [s.trim()] *)
Definition trim (s : jsstring) : jsstring :=
  trimEnd (trimStart s).

(** The code units of a decimal numeral, most significant digit first. *)
Fixpoint digits (d : Decimal.uint) : jsstring :=
  match d with
  | Decimal.Nil => []
  | Decimal.D0 d' => 48%N :: digits d'
  | Decimal.D1 d' => 49%N :: digits d'
  | Decimal.D2 d' => 50%N :: digits d'
  | Decimal.D3 d' => 51%N :: digits d'
  | Decimal.D4 d' => 52%N :: digits d'
  | Decimal.D5 d' => 53%N :: digits d'
  | Decimal.D6 d' => 54%N :: digits d'
  | Decimal.D7 d' => 55%N :: digits d'
  | Decimal.D8 d' => 56%N :: digits d'
  | Decimal.D9 d' => 57%N :: digits d'
  end.

(** [String(n)] for an integer-valued number, as a template literal
    interpolates it. *)
Definition numberToString (n : Z) : jsstring :=
  match Z.to_int n with
  | Decimal.Pos d => digits d
  | Decimal.Neg d => 45%N :: digits d
  end.

End JS.

Import JS.

(* ================================================================== *)
(** ** The regular expression of the front-matter stripping *)
(* ================================================================== *)

(** [/^---[\s\S]*?---\n/] has no flag: [^] is the start of the input,
    [[\s\S]] is any code unit, and [*?] is lazy.  A backtracking matcher
    for exactly this shape follows: each function returns what is left of
    the input after the match. *)
Module Regex.

(** A literal at the head of the input. *)
Fixpoint literal (lit s : jsstring) : option jsstring :=
  match lit, s with
  | [], _ => Some s
  | a :: lit', b :: s' => if (a =? b)%N then literal lit' s' else None
  | _ :: _, [] => None
  end.

(** [[\s\S]*?] followed by the literal [lit]: the lazy quantifier first
    tries the continuation, and on failure takes one more code unit. *)
Fixpoint lazyAnyThen (lit s : jsstring) : option jsstring :=
  match literal lit s with
  | Some rest => Some rest
  | None =>
      match s with
      | [] => None
      | _ :: s' => lazyAnyThen lit s'
      end
  end.

Definition opening : jsstring := str "---".
Definition closing : jsstring := str "---" ++ [10%N].

(** The whole pattern, tried at index 0 only (it is anchored). *)
Definition frontMatter (s : jsstring) : option jsstring :=
  match literal opening s with
  | Some afterOpening => lazyAnyThen closing afterOpening
  | None => None
  end.

(** [s.replace(/^---[\s\S]*?---\n/, '')] *)
Definition replaceFrontMatter (s : jsstring) : jsstring :=
  match frontMatter s with
  | Some rest => rest
  | None => s
  end.

End Regex.

(* ================================================================== *)
(** ** Pages *)
(* ================================================================== *)

(** [interface PageContent] *)
Record PageContent : Type := mkPage {
  title : jsstring;
  content : list jsstring;
  pageNumber : Z;
  totalPages : Z
}.

(** The title of every page but the first, four code units (U+7EE7 U+7EED
    U+9605 U+8BFB). *)
Definition continueTitle : jsstring := [32487%N; 32493%N; 38405%N; 35835%N].

(** [Math.ceil(n / 12)] for an array length [n].  The division is exact
    here; on doubles it rounds, but for a length (below 2^32) the rounded
    quotient has the same ceiling. *)
Definition ceilLinesPerPage (n : nat) : Z :=
  Qceiling (inject_Z (Z.of_nat n) / inject_Z 12).

(** The variables of the loop of [splitContentIntoPages]. *)
Record SplitState : Type := mkSplit {
  pages : list PageContent;
  currentPage : list jsstring;
  pageCount : Z
}.

(** One turn of the loop, at index [i].  [paragraphs[i]] is read with a
    default that is never used: the loop keeps [i] below the length. *)
Definition splitStep (paragraphs : list jsstring) (st : SplitState) (i : nat)
  : SplitState :=
  let currentPage' := currentPage st ++ [nth i paragraphs []] in
  if (12 <=? length currentPage')%nat || (i =? length paragraphs - 1)%nat then
    let pageCount' := pageCount st + 1 in
    mkSplit
      (pages st ++
         [mkPage (if pageCount' =? 1 then nth 0 paragraphs [] else continueTitle)
                 currentPage'
                 pageCount'
                 (ceilLinesPerPage (length paragraphs))])
      []
      pageCount'
  else
    mkSplit (pages st) currentPage' (pageCount st).

(** [content.split('\n').filter(line => line.trim())] *)
Definition paragraphsOf (text : jsstring) : list jsstring :=
  filter (fun line => truthy (trim line)) (split 10%N text).

(** [splitContentIntoPages] *)
Definition splitContentIntoPages (text : jsstring) : list PageContent :=
  let paragraphs := paragraphsOf text in
  pages (fold_left (splitStep paragraphs)
                   (seq 0 (length paragraphs))
                   (mkSplit [] [] 0)).

(* ================================================================== *)
(** ** The canvas *)
(* ================================================================== *)

(** The canvas element and its 2d context are one mutable object here: the
    state the code reads back ([font], through [measureText]) and the
    history of the calls made on it, oldest first. *)
Module Canvas.

Inductive Call : Type :=
| SetWidth (w : Z)
| SetHeight (h : Z)
| SetFillStyle (style : jsstring)
| SetFont (f : jsstring)
| FillRect (x y w h : Z)
| FillText (text : jsstring) (x y : Z)
| MeasureText (text : jsstring)
| ToDataURL (type : jsstring).

Record Surface : Type := mkSurface {
  font : jsstring;
  fillStyle : jsstring;
  calls : list Call
}.

Definition defaultFont : jsstring := str "10px sans-serif".
Definition defaultFillStyle : jsstring := str "#000000".

(** [document.createElement('canvas')] with its context just acquired. *)
Definition fresh : Surface := mkSurface defaultFont defaultFillStyle [].

(** Code that works on the surface: a state monad. *)
Definition M (A : Type) : Type := Surface -> A * Surface.

Definition ret {A : Type} (a : A) : M A := fun s => (a, s).

Definition bind {A B : Type} (m : M A) (k : A -> M B) : M B :=
  fun s => let (a, s') := m s in k a s'.

Definition record (c : Call) (s : Surface) : Surface :=
  mkSurface (font s) (fillStyle s) (calls s ++ [c]).

(** Assigning a dimension resets the context to its defaults. *)
Definition setWidth (w : Z) : M unit :=
  fun s => (tt, mkSurface defaultFont defaultFillStyle (calls s ++ [SetWidth w])).

Definition setHeight (h : Z) : M unit :=
  fun s => (tt, mkSurface defaultFont defaultFillStyle (calls s ++ [SetHeight h])).

Definition setFillStyle (style : jsstring) : M unit :=
  fun s => (tt, mkSurface (font s) style (calls s ++ [SetFillStyle style])).

Definition setFont (f : jsstring) : M unit :=
  fun s => (tt, mkSurface f (fillStyle s) (calls s ++ [SetFont f])).

Definition fillRect (x y w h : Z) : M unit :=
  fun s => (tt, record (FillRect x y w h) s).

Definition fillText (text : jsstring) (x y : Z) : M unit :=
  fun s => (tt, record (FillText text x y) s).

End Canvas.

Import Canvas.

Notation "x <- m ;; k" := (bind m (fun x => k))
  (at level 61, m at next level, right associativity).
Notation "m ;; k" := (bind m (fun _ => k))
  (at level 61, right associativity).

(** [a > b] on numbers. *)
Definition Qgtb (a b : Q) : bool := negb (Qle_bool a b).

(* ================================================================== *)
(** ** class MyPlugin *)
(* ================================================================== *)

Section MyPlugin.

(** The browser: the width [measureText] reports for a text under a font,
    the data URL [toDataURL] gives for a canvas with a given history, and
    whether the k-th [getContext('2d')] of a batch yields a context. *)
Variable measure : jsstring -> jsstring -> Q.
Variable encode : list Call -> jsstring.
Variable acquire : nat -> bool.

(** [context.measureText(text).width] *)
Definition measureText (text : jsstring) : M Q :=
  fun s => (measure (font s) text, record (MeasureText text) s).

(** [canvas.toDataURL(type)] *)
Definition toDataURL (type : jsstring) : M jsstring :=
  fun s => (encode (calls s), record (ToDataURL type) s).

(** The loop of [wrapText] over the words that are left, with the
    variables [lines] and [currentLine]. *)
Fixpoint wrapWords (words : list jsstring) (maxWidth : Q)
         (lines : list jsstring) (currentLine : jsstring)
  : M (list jsstring * jsstring) :=
  match words with
  | [] => ret (lines, currentLine)
  | word :: rest =>
      let testLine := currentLine ++ word ++ str " " in
      w <- measureText testLine ;;
      if Qgtb w maxWidth && negb (strictEq currentLine [])
      then wrapWords rest maxWidth (lines ++ [currentLine]) (word ++ str " ")
      else wrapWords rest maxWidth lines testLine
  end.

(** [wrapText] *)
Definition wrapText (text : jsstring) (maxWidth : Q) : M (list jsstring) :=
  let words := split 32%N text in
  r <- wrapWords words maxWidth [] [] ;;
  ret (fst r ++ [snd r]).

Definition width : Z := 1080.
Definition height : Z := 1440.
Definition margin : Z := 60.
Definition lineHeight : Z := 50.
Definition maxWidth : Z := width - margin * 2.

Definition pingFang (prefix : String.string) : jsstring :=
  str prefix ++ [34%N] ++ str "PingFang SC" ++ [34%N].
Definition titleFont : jsstring := pingFang "bold 48px ".
Definition bodyFont : jsstring := pingFang "36px ".
Definition footerFont : jsstring := pingFang "28px ".

(** The inner loop of the body: the fragments of one paragraph, from the
    cursor [y]; [break] leaves the loop with the cursor as it is. *)
Fixpoint drawLines (lines : list jsstring) (y : Z) : M Z :=
  match lines with
  | [] => ret y
  | line :: rest =>
      if y >? height - 100 then ret y
      else fillText line margin y ;; drawLines rest (y + lineHeight)
  end.

(** The outer loop of the body; [continue] goes to the next paragraph
    with nothing done. *)
Fixpoint drawParagraphs (page : PageContent) (paragraphs : list jsstring) (y : Z)
  : M Z :=
  match paragraphs with
  | [] => ret y
  | paragraph :: rest =>
      if strictEq paragraph (title page) && (pageNumber page =? 1)
      then drawParagraphs page rest y
      else
        lines <- wrapText paragraph (inject_Z maxWidth) ;;
        y' <- drawLines lines y ;;
        drawParagraphs page rest (y' + 20)
  end.

(** The footer text, [`${page.pageNumber}/${page.totalPages}`]. *)
Definition footerText (page : PageContent) : jsstring :=
  numberToString (pageNumber page) ++ str "/" ++ numberToString (totalPages page).

(** [generateSinglePageImage] once the context is there. *)
Definition drawPage (page : PageContent) : M jsstring :=
  setWidth width ;;
  setHeight height ;;
  setFillStyle (str "#ffffff") ;;
  fillRect 0 0 width height ;;
  let y := margin + 50 in
  setFillStyle (str "#333333") ;;
  setFont titleFont ;;
  fillText (title page) margin y ;;
  let y := y + 100 in
  setFont bodyFont ;;
  _ <- drawParagraphs page (content page) y ;;
  setFillStyle (str "#666666") ;;
  setFont footerFont ;;
  fillText (footerText page) (width - 100) (height - 50) ;;
  toDataURL (str "image/png").

(** [generateSinglePageImage]: the value returned ([None] is
    [undefined]) and the calls made on the canvas.  [acquired] says
    whether [getContext('2d')] gave a context. *)
Definition generateSinglePageImage (acquired : bool) (page : PageContent)
                                   (fileName : jsstring)
  : option jsstring * list Call :=
  if acquired then
    let (imageData, s) := drawPage page fresh in (Some imageData, calls s)
  else (None, []).

(** The loop of [generateRedNoteImages]: [k] counts the pages rendered
    so far, [images] is the array being filled. *)
Fixpoint renderPages (k : nat) (pages : list PageContent) (fileName : jsstring)
         (images : list jsstring) : list jsstring :=
  match pages with
  | [] => images
  | page :: rest =>
      match fst (generateSinglePageImage (acquire k) page fileName) with
      | Some imageData =>
          if truthy imageData
          then renderPages (S k) rest fileName (images ++ [imageData])
          else renderPages (S k) rest fileName images
      | None => renderPages (S k) rest fileName images
      end
  end.

(** [generateRedNoteImages] *)
Definition generateRedNoteImages (content : jsstring) (fileName : jsstring)
  : list jsstring :=
  let content := Regex.replaceFrontMatter content in
  let pages := splitContentIntoPages content in
  renderPages 0 pages fileName [].

End MyPlugin.

(* ================================================================== *)
(** ** What the specification talks about *)
(* ================================================================== *)

(** A line is blank when it is empty or holds white space only. *)
Definition blank (line : jsstring) : bool := forallb isTrimmable line.

(** The non-blank lines of a document, in their order. *)
Definition nonBlankLines (text : jsstring) : list jsstring :=
  filter (fun line => negb (blank line)) (split 10%N text).

(** The state of the paginator's loop after its first [k] turns. *)
Definition splitRun (paragraphs : list jsstring) (k : nat) : SplitState :=
  fold_left (splitStep paragraphs) (seq 0 k) (mkSplit [] [] 0).

(** What holds of that state as long as the last paragraph is not reached:
    the closed pages are full, and with the open buffer they hold the
    first [k] paragraphs. *)
Record SplitInv (paragraphs : list jsstring) (k : nat) (st : SplitState) : Prop := {
  inv_lines : concat (map content (pages st)) ++ currentPage st = firstn k paragraphs;
  inv_room : (length (currentPage st) < 12)%nat;
  inv_full : Forall (fun p => length (content p) = 12%nat) (pages st);
  inv_count : pageCount st = Z.of_nat (length (pages st));
  inv_numbers : map pageNumber (pages st) = map Z.of_nat (seq 1 (length (pages st)));
  inv_total : Forall (fun p => totalPages p = ceilLinesPerPage (length paragraphs)) (pages st);
  inv_title : Forall (fun p => title p = if pageNumber p =? 1 then nth 0 paragraphs []
                                         else continueTitle) (pages st)
}.

(** Everything the loop guarantees of the pages it returns. *)
Record Paginated (paragraphs : list jsstring) (ps : list PageContent) : Prop := {
  pag_lines : concat (map content ps) = paragraphs;
  pag_nonempty : Forall (fun p => content p <> []) ps;
  pag_bounded : Forall (fun p => (length (content p) <= 12)%nat) ps;
  pag_numbers : map pageNumber ps = map Z.of_nat (seq 1 (length ps));
  pag_total : Forall (fun p => totalPages p = ceilLinesPerPage (length paragraphs)) ps;
  pag_count : Z.of_nat (length ps) = ceilLinesPerPage (length paragraphs);
  pag_title : Forall (fun p => title p = if pageNumber p =? 1 then nth 0 paragraphs []
                                         else continueTitle) ps
}.

(** A fragment is in order for the width [W] under the font [f] when it
    measures at most [W], or is a single token of [tokens] with its space
    that measures more. *)
Definition fragmentOk (measure : jsstring -> jsstring -> Q)
           (f : jsstring) (W : Q) (tokens : list jsstring)
           (fragment : jsstring) : Prop :=
  (measure f fragment <= W)%Q
  \/ exists token, In token tokens
                   /\ fragment = token ++ str " "
                   /\ (W < measure f fragment)%Q.

(** What the body loop may do: measure, and draw text at or above the
    bottom content boundary. *)
Definition bodyCallOk (c : Call) : Prop :=
  match c with
  | FillText _ _ y => y <= height - 100
  | MeasureText _ => True
  | _ => False
  end.

(** The calls of [generateSinglePageImage] before the body loop. *)
Definition headerCalls (page : PageContent) : list Call :=
  [SetWidth width; SetHeight height;
   SetFillStyle (str "#ffffff"); FillRect 0 0 width height;
   SetFillStyle (str "#333333"); SetFont titleFont;
   FillText (title page) margin (margin + 50);
   SetFont bodyFont].

(** The calls of [generateSinglePageImage] after the body loop. *)
Definition footerCalls (page : PageContent) : list Call :=
  [SetFillStyle (str "#666666"); SetFont footerFont;
   FillText (footerText page) (width - 100) (height - 50);
   ToDataURL (str "image/png")].

(** The pages of a batch with their position in it, from 0. *)
Definition indexed (ps : list PageContent) : list (nat * PageContent) :=
  combine (seq 0 (length ps)) ps.

(** A front-matter block with both markers on lines of their own: the
    text starts with the marker and a line break, and later a line holds
    the marker alone and ends in a line break. *)
Definition ownLineBlock (text : jsstring) : bool :=
  match Regex.literal (Regex.opening ++ [10%N]) text with
  | Some _ =>
      match Regex.lazyAnyThen ([10%N] ++ Regex.closing) (skipn 3 text) with
      | Some _ => true
      | None => false
      end
  | None => false
  end.

(** A browser to run the code on: every code unit is 20 pixels wide in
    every font, the data URL tells how many calls were made on the canvas,
    and every second [getContext] fails, the first one included. *)
Definition sampleMeasure (f text : jsstring) : Q :=
  inject_Z (20 * Z.of_nat (length text)).

Definition sampleEncode (cs : list Call) : jsstring :=
  str "data:" ++ numberToString (Z.of_nat (length cs)).

Definition sampleAcquire (k : nat) : bool := Nat.odd k.

(** A document of thirteen one-letter lines. *)
Definition thirteenLines : jsstring :=
  join 10%N (repeat (str "x") 13).

(** A paragraph that wraps into five fragments on that browser, and a page
    of twelve of them: sixty fragments, far more than fit. *)
Definition longParagraph : jsstring := join 32%N (repeat (str "word") 40).

Definition crowdedPage : PageContent :=
  mkPage continueTitle (repeat longParagraph 12) 2 3.

(** The calls of a history that draw text. *)
Definition isFillText (c : Call) : bool :=
  match c with
  | FillText _ _ _ => true
  | _ => false
  end.

Definition fillTexts (cs : list Call) : list Call := filter isFillText cs.

(* ================================================================== *)
(** ** Sharing and the preview *)
(* ================================================================== *)

(** The notice for a file that has no name yet (six code units). *)
Definition saveFirstNotice : jsstring :=
  [35831%N; 20808%N; 20445%N; 23384%N; 25991%N; 20214%N].

(** What [createRedNoteShare] does in the end: a notice, nothing, or the
    preview opened on the images. *)
Inductive Shown : Type :=
| NoticeShown (message : jsstring)
| NothingShown
| PreviewOpened (images : list jsstring) (fileName : jsstring).

Section Share.

Variable measure : jsstring -> jsstring -> Q.
Variable encode : list Call -> jsstring.
Variable acquire : nat -> bool.

(** [createRedNoteShare]; the file name is [None] when it is
    [undefined]. *)
Definition createRedNoteShare (content : jsstring) (fileName : option jsstring)
  : Shown :=
  match fileName with
  | None => NoticeShown saveFirstNotice
  | Some name =>
      if negb (truthy name) then NoticeShown saveFirstNotice
      else
        let images := generateRedNoteImages measure encode acquire content name in
        if (length images =? 0)%nat then NothingShown
        else PreviewOpened images name
  end.

End Share.

(** [class ImagePreviewModal]: its fields, the image element and the row
    of buttons it builds, and what it hands to the browser (downloads) and
    to the host (notices). *)
Module ImagePreviewModal.

(** The four click handlers of [onOpen]. *)
Inductive Handler : Type :=
| Previous
| Next
| SaveAll
| SaveFirst.

Record Button : Type := mkButton {
  text : jsstring;
  disabled : bool;
  onClick : Handler
}.

Record Modal : Type := mkModal {
  images : list jsstring;
  fileName : jsstring;
  currentIndex : Z;
  (** the [src] of the image element, once there is one; the inner
      [None] is [undefined] *)
  img : option (option jsstring);
  buttons : list Button;
  (** [link.download] and [link.href] of every link clicked *)
  downloads : list (jsstring * option jsstring);
  notices : list jsstring
}.

Definition previousText : jsstring := [19978%N; 19968%N; 39029%N].
Definition nextText : jsstring := [19979%N; 19968%N; 39029%N].
Definition saveAllText : jsstring :=
  [20445%N; 23384%N; 20840%N; 37096%N; 22270%N; 29255%N].
Definition saveText : jsstring := [20445%N; 23384%N; 22270%N; 29255%N].
Definition shareLabel : jsstring :=
  [95%N; 23567%N; 32418%N; 20070%N; 20998%N; 20139%N; 95%N].
Definition allSavedNotice : jsstring :=
  [25152%N; 26377%N; 22270%N; 29255%N; 24050%N; 20445%N; 23384%N].

(** [array[i]]: [undefined] outside the array. *)
Definition item (array : list jsstring) (i : Z) : option jsstring :=
  if i <? 0 then None else nth_error array (Z.to_nat i).

(** [new ImagePreviewModal(app, images, fileName)] *)
Definition construct (images : list jsstring) (fileName : jsstring) : Modal :=
  mkModal images fileName 0 None [] [] [].

(** [displayCurrentImage] *)
Definition displayCurrentImage (m : Modal) : Modal :=
  mkModal (images m) (fileName m) (currentIndex m)
          (Some (item (images m) (currentIndex m)))
          (buttons m) (downloads m) (notices m).

(** [button.disabled = d] on the k-th button of the row, when the
    selector finds one. *)
Fixpoint setDisabled (k : nat) (d : bool) (row : list Button) : list Button :=
  match row, k with
  | [], _ => []
  | b :: rest, O => mkButton (text b) d (onClick b) :: rest
  | b :: rest, S k' => b :: setDisabled k' d rest
  end.

(** [updateButtons]: [button:first-child] and [button:nth-child(2)] are
    the first and the second button of the row. *)
Definition updateButtons (m : Modal) : Modal :=
  mkModal (images m) (fileName m) (currentIndex m) (img m)
          (setDisabled 1 (currentIndex m =? Z.of_nat (length (images m)) - 1)
             (setDisabled 0 (currentIndex m =? 0) (buttons m)))
          (downloads m) (notices m).

(** [onOpen]: the content is emptied, the image shown and the row of
    buttons built. *)
Definition onOpen (m : Modal) : Modal :=
  let m := displayCurrentImage m in
  mkModal (images m) (fileName m) (currentIndex m) (img m)
          (if Z.of_nat (length (images m)) >? 1 then
             [mkButton previousText (currentIndex m =? 0) Previous;
              mkButton nextText
                       (currentIndex m =? Z.of_nat (length (images m)) - 1) Next;
              mkButton saveAllText false SaveAll]
           else [mkButton saveText false SaveFirst])
          (downloads m) (notices m).

(** The name of the file a download is saved under,
    the file name, the share label, the index and [.png]. *)
Definition downloadName (fileName : jsstring) (index : Z) : jsstring :=
  fileName ++ shareLabel ++ numberToString index ++ str ".png".

(** [saveImage] *)
Definition saveImage (imageData : option jsstring) (index : Z) (m : Modal) : Modal :=
  mkModal (images m) (fileName m) (currentIndex m) (img m) (buttons m)
          (downloads m ++ [(downloadName (fileName m) index, imageData)])
          (notices m).

(** [saveAllImages]: [forEach] over the images with their index, then the
    notice. *)
Definition saveAllImages (m : Modal) : Modal :=
  let m' :=
    fold_left (fun acc entry =>
                 saveImage (Some (snd entry)) (Z.of_nat (fst entry) + 1) acc)
              (combine (seq 0 (length (images m))) (images m)) m in
  mkModal (images m') (fileName m') (currentIndex m') (img m') (buttons m')
          (downloads m') (notices m' ++ [allSavedNotice]).

Definition moveTo (i : Z) (m : Modal) : Modal :=
  mkModal (images m) (fileName m) i (img m) (buttons m) (downloads m) (notices m).

(** The body of a click handler. *)
Definition handle (h : Handler) (m : Modal) : Modal :=
  match h with
  | Previous => updateButtons (displayCurrentImage (moveTo (currentIndex m - 1) m))
  | Next => updateButtons (displayCurrentImage (moveTo (currentIndex m + 1) m))
  | SaveAll => saveAllImages m
  | SaveFirst => saveImage (item (images m) 0) 1 m
  end.

(** The user clicks the k-th button of the row: a button that is not
    there or is disabled gives no click event. *)
Definition click (k : nat) (m : Modal) : Modal :=
  match nth_error (buttons m) k with
  | Some b => if disabled b then m else handle (onClick b) m
  | None => m
  end.

End ImagePreviewModal.

(* ================================================================== *)
(** ** More of what the code is measured against *)
(* ================================================================== *)

(** A group of tokens the way the word wrap writes it: each token with a
    space after it. *)
Definition spaced (tokens : list jsstring) : jsstring :=
  concat (map (fun w => w ++ str " ") tokens).

(** The fragments of a paragraph under a font, at the width of a page. *)
Definition fragmentsUnder (measure : jsstring -> jsstring -> Q)
           (f paragraph : jsstring) : list jsstring :=
  fst (wrapText measure paragraph (inject_Z maxWidth)
                (mkSurface f defaultFillStyle [])).

(** The test of the [continue] in the body loop. *)
Definition skipped (page : PageContent) (paragraph : jsstring) : bool :=
  strictEq paragraph (title page) && (pageNumber page =? 1).

(** The layout with no bottom boundary: every fragment one line height
    below the one before, twenty more after each paragraph. *)
Fixpoint placeLines (lines : list jsstring) (y : Z) : list Call :=
  match lines with
  | [] => []
  | line :: rest => FillText line margin y :: placeLines rest (y + lineHeight)
  end.

Fixpoint layout (measure : jsstring -> jsstring -> Q) (page : PageContent)
         (paragraphs : list jsstring) (y : Z) : list Call :=
  match paragraphs with
  | [] => []
  | paragraph :: rest =>
      if skipped page paragraph then layout measure page rest y
      else
        let lines := fragmentsUnder measure bodyFont paragraph in
        placeLines lines y
        ++ layout measure page rest
                  (y + lineHeight * Z.of_nat (length lines) + 20)
  end.

(** A text drawn at or above the bottom content boundary. *)
Definition onCanvas (c : Call) : bool :=
  match c with
  | FillText _ _ y => y <=? height - 100
  | _ => true
  end.

Fixpoint takeWhile {A : Type} (f : A -> bool) (l : list A) : list A :=
  match l with
  | [] => []
  | a :: rest => if f a then a :: takeWhile f rest else []
  end.

(** Texts drawn at the left margin, from [y] on, each at least one line
    height below the one before. *)
Fixpoint stepped (y : Z) (cs : list Call) : Prop :=
  match cs with
  | [] => True
  | FillText _ x y' :: rest => x = margin /\ y <= y' /\ stepped (y' + lineHeight) rest
  | _ :: _ => False
  end.

(** A preview in order: the index is inside the images, the image
    element shows the image at the index, and the row of buttons is the
    one [onOpen] builds, with the two navigation buttons disabled exactly
    at the two ends. *)
Definition previewInOrder (m : ImagePreviewModal.Modal) : Prop :=
  let n := Z.of_nat (length (ImagePreviewModal.images m)) in
  let i := ImagePreviewModal.currentIndex m in
  0 <= i < n
  /\ ImagePreviewModal.img m
     = Some (nth_error (ImagePreviewModal.images m) (Z.to_nat i))
  /\ nth_error (ImagePreviewModal.images m) (Z.to_nat i) <> None
  /\ ImagePreviewModal.buttons m
     = if n >? 1 then
         [ImagePreviewModal.mkButton ImagePreviewModal.previousText (i =? 0)
                                     ImagePreviewModal.Previous;
          ImagePreviewModal.mkButton ImagePreviewModal.nextText (i =? n - 1)
                                     ImagePreviewModal.Next;
          ImagePreviewModal.mkButton ImagePreviewModal.saveAllText false
                                     ImagePreviewModal.SaveAll]
       else
         [ImagePreviewModal.mkButton ImagePreviewModal.saveText false
                                     ImagePreviewModal.SaveFirst].

(* ================================================================== *)
(** ** Strings *)
(* ================================================================== *)

Lemma strictEq_spec (a b : jsstring) : strictEq a b = true <-> a = b.
Proof.
  revert b; induction a as [|x a IH]; intros [|y b]; simpl; split; intro H;
    try reflexivity; try discriminate.
  - apply andb_true_iff in H as [Hx Hab].
    apply N.eqb_eq in Hx. apply IH in Hab. congruence.
  - injection H as -> ->. rewrite N.eqb_refl. simpl. now apply IH.
Qed.

Lemma strictEq_refl (a : jsstring) : strictEq a a = true.
Proof. now apply strictEq_spec. Qed.

Lemma split_not_nil (sep : N) (s : jsstring) : split sep s <> [].
Proof.
  destruct s as [|c s]; simpl; [discriminate|].
  destruct (c =? sep)%N; [discriminate|].
  destruct (split sep s); discriminate.
Qed.

Lemma join_split (sep : N) (s : jsstring) : join sep (split sep s) = s.
Proof.
  induction s as [|c s IH]; simpl; [reflexivity|].
  destruct (N.eqb_spec c sep) as [->|Hne].
  - pose proof (split_not_nil sep s) as Hnn.
    simpl. destruct (split sep s) as [|w ws]; [contradiction|].
    simpl in *. now rewrite IH.
  - pose proof (split_not_nil sep s) as Hnn.
    destruct (split sep s) as [|w ws]; [contradiction|].
    destruct ws as [|w' ws]; simpl in *; now rewrite <- IH.
Qed.

Lemma split_no_sep (sep : N) (s : jsstring) :
  Forall (fun w => ~ In sep w) (split sep s).
Proof.
  induction s as [|c s IH]; simpl.
  - constructor; [intros []|constructor].
  - destruct (N.eqb_spec c sep) as [->|Hne].
    + constructor; [intros []|exact IH].
    + destruct (split sep s) as [|w ws].
      * constructor; [|constructor]. intros [H|[]]. now apply Hne.
      * inversion IH as [|? ? Hw Hws]; subst. constructor; [|exact Hws].
        intros [H|H]; [now apply Hne|now apply Hw].
Qed.

Lemma trimStart_nil (s : jsstring) :
  trimStart s = [] <-> forallb isTrimmable s = true.
Proof.
  induction s as [|c s IH]; simpl; [tauto|].
  destruct (isTrimmable c); simpl; [exact IH|].
  split; discriminate.
Qed.

Lemma trimStart_keeps (s : jsstring) :
  existsb (fun c => negb (isTrimmable c)) (trimStart s)
  = existsb (fun c => negb (isTrimmable c)) s.
Proof.
  induction s as [|c s IH]; simpl; [reflexivity|].
  destruct (isTrimmable c) eqn:E; simpl; [exact IH|].
  now rewrite E.
Qed.

Lemma existsb_rev {A : Type} (f : A -> bool) (l : list A) :
  existsb f (rev l) = existsb f l.
Proof.
  induction l as [|a l IH]; simpl; [reflexivity|].
  rewrite existsb_app, IH. simpl. rewrite orb_false_r. apply orb_comm.
Qed.

Lemma forallb_negb_existsb {A : Type} (f : A -> bool) (l : list A) :
  forallb f l = negb (existsb (fun a => negb (f a)) l).
Proof.
  induction l as [|a l IH]; simpl; [reflexivity|].
  rewrite IH. now destruct (f a).
Qed.

Lemma truthy_nil_iff (s : jsstring) : truthy s = false <-> s = [].
Proof. destruct s; simpl; split; congruence. Qed.

(** [line.trim()] is truthy exactly for the lines that are not blank. *)
Lemma truthy_trim (line : jsstring) : truthy (trim line) = negb (blank line).
Proof.
  unfold blank, trim, trimEnd.
  destruct (forallb isTrimmable line) eqn:E; simpl.
  - apply trimStart_nil in E. rewrite E. reflexivity.
  - destruct (truthy _) eqn:T; [reflexivity|].
    apply truthy_nil_iff in T.
    apply (f_equal (@rev N)) in T. rewrite rev_involutive in T. simpl in T.
    apply trimStart_nil in T.
    rewrite forallb_negb_existsb, existsb_rev, trimStart_keeps in T.
    rewrite forallb_negb_existsb in E.
    rewrite <- E, <- T. reflexivity.
Qed.

Lemma paragraphsOf_nonBlank (text : jsstring) :
  paragraphsOf text = nonBlankLines text.
Proof.
  unfold paragraphsOf, nonBlankLines.
  apply filter_ext. intro line. apply truthy_trim.
Qed.

(* ================================================================== *)
(** ** The paginator *)
(* ================================================================== *)

Lemma ceilLinesPerPage_div (n : nat) :
  ceilLinesPerPage n = (Z.of_nat n + 11) / 12.
Proof.
  unfold ceilLinesPerPage, Qceiling, Qfloor, Qdiv, Qinv, Qmult, Qopp, inject_Z.
  simpl Qnum. simpl Qden. cbn [Z.opp Pos.mul].
  change (Z.pos (1 * 12)) with 12.
  rewrite Z.mul_1_r.
  generalize (Z.of_nat n). intro a.
  Z.to_euclidean_division_equations. lia.
Qed.

(** [ceilLinesPerPage n] is the ceiling of [n / 12]: the least number of
    twelves that cover [n]. *)
Lemma ceilLinesPerPage_bounds (n : nat) :
  12 * (ceilLinesPerPage n - 1) < Z.of_nat n <= 12 * ceilLinesPerPage n.
Proof.
  rewrite ceilLinesPerPage_div.
  Z.to_euclidean_division_equations. lia.
Qed.

Lemma splitRun_S (paragraphs : list jsstring) (k : nat) :
  splitRun paragraphs (S k) = splitStep paragraphs (splitRun paragraphs k) k.
Proof.
  unfold splitRun. rewrite seq_S, fold_left_app. reflexivity.
Qed.

Lemma firstn_snoc {A : Type} (d : A) (l : list A) (k : nat) :
  (k < length l)%nat -> firstn (S k) l = firstn k l ++ [nth k l d].
Proof.
  revert k; induction l as [|a l IH]; intros k Hk; simpl in Hk; [lia|].
  destruct k as [|k]; [reflexivity|].
  rewrite !firstn_cons. rewrite (IH k) by lia. reflexivity.
Qed.

Lemma length_concat_full (ps : list PageContent) :
  Forall (fun p => length (content p) = 12%nat) ps ->
  length (concat (map content ps)) = (12 * length ps)%nat.
Proof.
  induction 1 as [|p ps Hp _ IH]; simpl; [reflexivity|].
  rewrite length_app, Hp, IH. lia.
Qed.

Lemma SplitInv_size (paragraphs : list jsstring) (k : nat) (st : SplitState) :
  (k <= length paragraphs)%nat ->
  SplitInv paragraphs k st ->
  (12 * length (pages st) + length (currentPage st) = k)%nat.
Proof.
  intros Hk [Hl _ Hf _ _ _ _].
  apply (f_equal (@length _)) in Hl.
  rewrite length_app, length_concat_full, length_firstn in Hl by exact Hf.
  lia.
Qed.

Lemma SplitInv_init (paragraphs : list jsstring) :
  SplitInv paragraphs 0 (mkSplit [] [] 0).
Proof. split; simpl; try constructor; lia. Qed.

(** A turn of the loop before the last paragraph keeps the invariant. *)
Lemma SplitInv_step (paragraphs : list jsstring) (k : nat) (st : SplitState) :
  (S k < length paragraphs)%nat ->
  SplitInv paragraphs k st ->
  SplitInv paragraphs (S k) (splitStep paragraphs st k).
Proof.
  intros Hk Hinv. destruct Hinv as [Hl Hr Hf Hc Hn Ht Hti].
  unfold splitStep. cbv zeta.
  replace (k =? length paragraphs - 1)%nat with false
    by (symmetry; apply Nat.eqb_neq; lia).
  rewrite orb_false_r, length_app. simpl length.
  destruct (Nat.leb_spec 12 (length (currentPage st) + 1)) as [Hge|Hlt].
  - split; cbn [pages currentPage pageCount].
    + rewrite map_app, concat_app. cbn [map concat content]. rewrite !app_nil_r.
      rewrite (firstn_snoc ([] : jsstring)) by lia. rewrite <- Hl, app_assoc. reflexivity.
    + simpl. lia.
    + apply Forall_app; split; [exact Hf|]. constructor; [|constructor].
      simpl. rewrite length_app. simpl. lia.
    + rewrite length_app. simpl. lia.
    + rewrite map_app, length_app. simpl.
      rewrite Nat.add_1_r, seq_S, map_app. simpl.
      rewrite Hn, Hc. do 3 f_equal. lia.
    + apply Forall_app; split; [exact Ht|]. now repeat constructor.
    + apply Forall_app; split; [exact Hti|]. now repeat constructor.
  - split; cbn [pages currentPage pageCount]; try assumption.
    + rewrite (firstn_snoc ([] : jsstring)) by lia. rewrite <- Hl, app_assoc. reflexivity.
    + rewrite length_app. simpl. lia.
Qed.

Lemma SplitInv_run (paragraphs : list jsstring) (k : nat) :
  (k < length paragraphs)%nat ->
  SplitInv paragraphs k (splitRun paragraphs k).
Proof.
  induction k as [|k IH]; intro Hk.
  - apply SplitInv_init.
  - rewrite splitRun_S. apply SplitInv_step; [exact Hk|]. apply IH. lia.
Qed.

(** The pages a non-empty list of paragraphs gives: those closed before
    the last paragraph, then the page the last paragraph closes. *)
Lemma splitRun_last (paragraphs : list jsstring) (m : nat) :
  length paragraphs = S m ->
  let st := splitRun paragraphs m in
  pages (splitRun paragraphs (S m))
  = pages st ++
      [mkPage (if pageCount st + 1 =? 1 then nth 0 paragraphs [] else continueTitle)
              (currentPage st ++ [nth m paragraphs []])
              (pageCount st + 1)
              (ceilLinesPerPage (length paragraphs))].
Proof.
  intros Hlen st. rewrite splitRun_S. fold st. unfold splitStep. cbv zeta.
  replace (m =? length paragraphs - 1)%nat with true
    by (symmetry; apply Nat.eqb_eq; lia).
  rewrite orb_true_r. reflexivity.
Qed.

Lemma splitRun_paginated (paragraphs : list jsstring) :
  Paginated paragraphs (pages (splitRun paragraphs (length paragraphs))).
Proof.
  destruct (length paragraphs) as [|m] eqn:Hlen.
  - apply length_zero_iff_nil in Hlen. subst. split; simpl; try constructor.
  - rewrite (splitRun_last paragraphs m Hlen). cbv zeta.
    assert (Hm : (m < length paragraphs)%nat) by lia.
    pose proof (SplitInv_run paragraphs m Hm) as Hinv.
    pose proof (SplitInv_size paragraphs m _ (Nat.lt_le_incl _ _ Hm) Hinv) as Hsz.
    destruct Hinv as [Hl Hr Hf Hc Hn Ht Hti].
    set (st := splitRun paragraphs m) in *.
    split.
    + rewrite map_app, concat_app. cbn [map concat content].
      rewrite app_nil_r, app_assoc, Hl.
      rewrite <- (firstn_snoc ([] : jsstring)) by lia.
      rewrite <- Hlen. apply firstn_all.
    + apply Forall_app; split.
      * eapply Forall_impl; [|exact Hf]. intros p Hp Hnil.
        simpl in Hp. rewrite Hnil in Hp. discriminate.
      * constructor; [|constructor]. simpl. intro Hnil.
        apply app_eq_nil in Hnil as [_ Hnil]. discriminate.
    + apply Forall_app; split.
      * eapply Forall_impl; [|exact Hf]. intros p Hp. simpl in Hp. lia.
      * constructor; [|constructor]. simpl. rewrite length_app. simpl. lia.
    + rewrite map_app, length_app. simpl.
      rewrite Nat.add_1_r, seq_S, map_app. simpl.
      rewrite Hn, Hc. do 3 f_equal. lia.
    + rewrite Hlen in *. apply Forall_app; split; [exact Ht|]. now repeat constructor.
    + rewrite length_app. simpl. rewrite Hlen in *.
      pose proof (ceilLinesPerPage_bounds (S m)) as Hb. lia.
    + apply Forall_app; split; [exact Hti|]. now repeat constructor.
Qed.

Lemma splitContentIntoPages_paginated (text : jsstring) :
  Paginated (nonBlankLines text) (splitContentIntoPages text).
Proof.
  rewrite <- paragraphsOf_nonBlank. apply splitRun_paginated.
Qed.

(** C1: the content lines of the pages the paginator returns, concatenated
    in page order, are exactly the non-blank lines of the document (the
    lines that are not empty or white space only), in their order: none is
    lost, repeated or moved. *)
Theorem pages_concat_nonblank_lines (D : jsstring) :
  concat (map content (splitContentIntoPages D)) = nonBlankLines D.
Proof. apply splitContentIntoPages_paginated. Qed.

(** C2: with [N] the number of non-blank lines, every page carries the
    same [totalPages], which is the ceiling of [N / 12] (the one [T] with
    [12 * (T - 1) < N <= 12 * T]), and the page numbers are 1, 2, ...,
    [totalPages] in order.  This holds for every [N], also [N = 0]. *)
Theorem pages_numbered_to_ceiling (D : jsstring) :
  exists T : Z,
    12 * (T - 1) < Z.of_nat (length (nonBlankLines D)) <= 12 * T
    /\ Forall (fun p => totalPages p = T) (splitContentIntoPages D)
    /\ map pageNumber (splitContentIntoPages D) = map Z.of_nat (seq 1 (Z.to_nat T)).
Proof.
  destruct (splitContentIntoPages_paginated D) as [_ _ _ Hn Ht Hc _].
  exists (ceilLinesPerPage (length (nonBlankLines D))).
  split; [apply ceilLinesPerPage_bounds|]. split; [exact Ht|].
  rewrite <- Hc, Nat2Z.id. exact Hn.
Qed.

(** C3: no page the paginator returns has an empty list of content lines,
    and a document all of whose lines are blank gives no page at all. *)
Theorem pages_never_empty (D : jsstring) :
  Forall (fun p => content p <> []) (splitContentIntoPages D)
  /\ (forallb blank (split 10%N D) = true -> splitContentIntoPages D = []).
Proof.
  destruct (splitContentIntoPages_paginated D) as [Hl Hne _ _ _ _ _].
  split; [exact Hne|]. intro Hblank.
  assert (Hnb : nonBlankLines D = []).
  { unfold nonBlankLines. induction (split 10%N D) as [|l ls IH]; [reflexivity|].
    simpl in *. apply andb_true_iff in Hblank as [Hl1 Hls].
    rewrite Hl1. simpl. now apply IH. }
  rewrite Hnb in Hl.
  destruct (splitContentIntoPages D) as [|p ps]; [reflexivity|].
  inversion Hne as [|? ? Hp _]; subst. simpl in Hl.
  apply app_eq_nil in Hl as [Hl _]. contradiction.
Qed.

Lemma pages_never_empty_witness :
  splitContentIntoPages (str " " ++ [10%N; 9%N; 10%N]) = [].
Proof.
  apply (proj2 (pages_never_empty (str " " ++ [10%N; 9%N; 10%N]))).
  vm_compute. reflexivity.
Defined.

(** C4: when the document has a non-blank line, the first page has number
    1, its title is the first non-blank line, that line is also the first
    of its content lines, and every page whose number is above 1 has the
    continuation title. *)
Theorem first_title_then_continuation
        (D : jsstring) (first : jsstring) (others : list jsstring) :
  nonBlankLines D = first :: others ->
  exists p1 ps,
    splitContentIntoPages D = p1 :: ps
    /\ pageNumber p1 = 1
    /\ title p1 = first
    /\ hd_error (content p1) = Some first
    /\ Forall (fun p => 1 < pageNumber p -> title p = continueTitle) (p1 :: ps).
Proof.
  intro Hnb.
  destruct (splitContentIntoPages_paginated D) as [Hl Hne _ Hn _ _ Hti].
  rewrite Hnb in *.
  destruct (splitContentIntoPages D) as [|p1 ps]; [discriminate Hl|].
  exists p1, ps. split; [reflexivity|].
  assert (H1 : pageNumber p1 = 1) by (simpl in Hn; now injection Hn).
  split; [exact H1|].
  inversion Hti as [|? ? Ht1 _]; subst. rewrite H1 in Ht1. simpl in Ht1.
  split; [exact Ht1|]. split.
  - inversion Hne as [|? ? Hc1 _]; subst.
    destruct (content p1) as [|x xs] eqn:Ec; [contradiction|].
    simpl in Hl. rewrite Ec in Hl. simpl in Hl. now injection Hl as ->.
  - eapply Forall_impl; [|exact Hti]. intros p Hp Hgt. simpl in Hp.
    destruct (Z.eqb_spec (pageNumber p) 1); [lia|exact Hp].
Qed.

Lemma first_title_then_continuation_witness :
  exists p1 ps,
    splitContentIntoPages (str "Title" ++ [10%N] ++ str "body") = p1 :: ps
    /\ pageNumber p1 = 1
    /\ title p1 = str "Title"
    /\ hd_error (content p1) = Some (str "Title")
    /\ Forall (fun p => 1 < pageNumber p -> title p = continueTitle) (p1 :: ps).
Proof.
  apply (first_title_then_continuation _ (str "Title") [str "body"]).
  vm_compute. reflexivity.
Defined.

(* ================================================================== *)
(** ** The word wrap *)
(* ================================================================== *)

Section WrapFacts.

Variable measure : jsstring -> jsstring -> Q.

Lemma Qgtb_true (a b : Q) : Qgtb a b = true <-> (b < a)%Q.
Proof.
  unfold Qgtb. rewrite negb_true_iff. split; intro H.
  - apply Qnot_le_lt. intro Hle. apply Qle_bool_iff in Hle. congruence.
  - destruct (Qle_bool a b) eqn:E; [|reflexivity].
    apply Qle_bool_iff in E. exfalso. exact (Qlt_not_le _ _ H E).
Qed.

Lemma Qgtb_false (a b : Q) : Qgtb a b = false <-> (a <= b)%Q.
Proof.
  unfold Qgtb. rewrite negb_false_iff. apply Qle_bool_iff.
Qed.

Lemma token_fragmentOk (f : jsstring) (W : Q) (tokens : list jsstring)
      (token : jsstring) :
  In token tokens -> fragmentOk measure f W tokens (token ++ str " ").
Proof.
  intro Hin. destruct (Qlt_le_dec W (measure f (token ++ str " "))) as [Hgt|Hle].
  - right. exists token. auto.
  - left. exact Hle.
Qed.

Lemma wrapWords_step (word : jsstring) (rest : list jsstring) (W : Q)
      (lines : list jsstring) (cur : jsstring) (s : Surface) :
  wrapWords measure (word :: rest) W lines cur s
  = if Qgtb (measure (font s) (cur ++ word ++ str " ")) W && negb (strictEq cur [])
    then wrapWords measure rest W (lines ++ [cur]) (word ++ str " ")
                   (record (MeasureText (cur ++ word ++ str " ")) s)
    else wrapWords measure rest W lines (cur ++ word ++ str " ")
                   (record (MeasureText (cur ++ word ++ str " ")) s).
Proof.
  cbn [wrapWords]. unfold bind, measureText.
  destruct (Qgtb _ W && _); reflexivity.
Qed.

(** The loop neither loses nor adds text: lines and current line hold
    what they held, then every word with a space after it. *)
Lemma wrapWords_concat (words : list jsstring) (W : Q) :
  forall (lines : list jsstring) (cur : jsstring) (s : Surface),
    let r := fst (wrapWords measure words W lines cur s) in
    concat (fst r) ++ snd r
    = concat lines ++ cur ++ concat (map (fun w => w ++ str " ") words).
Proof.
  induction words as [|word rest IH]; intros lines cur s; cbv zeta.
  - simpl. now rewrite app_nil_r.
  - rewrite wrapWords_step.
    destruct (Qgtb _ W && _).
    + rewrite IH. rewrite concat_app. simpl.
      rewrite <- !app_assoc. reflexivity.
    + rewrite IH. simpl. rewrite <- !app_assoc. reflexivity.
Qed.

(** The loop only measures: the font stays, and the history grows by
    [measureText] calls, one for each word. *)
Lemma wrapWords_calls (words : list jsstring) (W : Q) :
  forall (lines : list jsstring) (cur : jsstring) (s : Surface),
    let s' := snd (wrapWords measure words W lines cur s) in
    font s' = font s
    /\ fillStyle s' = fillStyle s
    /\ exists measured,
        calls s' = calls s ++ map MeasureText measured
        /\ length measured = length words.
Proof.
  induction words as [|word rest IH]; intros lines cur s; cbv zeta.
  - simpl. repeat split. exists []. simpl. now rewrite app_nil_r.
  - rewrite wrapWords_step.
    destruct (Qgtb _ W && _);
      match goal with
      | |- context [wrapWords measure rest W ?l ?c ?t] =>
          destruct (IH l c t) as (Hf & Hs & ms & Hc & Hlen)
      end;
      (split; [exact Hf|]; split; [exact Hs|];
       exists ((cur ++ word ++ str " ") :: ms); split;
       [rewrite Hc; simpl; rewrite <- app_assoc; reflexivity
       |simpl; now rewrite Hlen]).
Qed.

(** Every closed line, and the current line once a word went in, is in
    order. *)
Lemma wrapWords_ok (tokens : list jsstring) (f : jsstring) (W : Q)
      (words : list jsstring) :
  forall (lines : list jsstring) (cur : jsstring) (s : Surface),
    font s = f ->
    incl words tokens ->
    Forall (fragmentOk measure f W tokens) lines ->
    (cur = [] \/ fragmentOk measure f W tokens cur) ->
    let r := fst (wrapWords measure words W lines cur s) in
    Forall (fragmentOk measure f W tokens) (fst r)
    /\ ((words = [] /\ snd r = cur) \/ fragmentOk measure f W tokens (snd r)).
Proof.
  induction words as [|word rest IH]; intros lines cur s Hf Hincl Hlines Hcur;
    cbv zeta.
  - simpl. auto.
  - assert (Hword : In word tokens) by (apply Hincl; now left).
    assert (Hrest : incl rest tokens)
      by (intros x Hx; apply Hincl; now right).
    rewrite wrapWords_step.
    destruct (Qgtb _ W && _) eqn:E.
    + apply andb_true_iff in E as [_ Hne].
      apply negb_true_iff in Hne.
      assert (Hok : fragmentOk measure f W tokens cur).
      { destruct Hcur as [->|Hok]; [discriminate Hne|exact Hok]. }
      destruct (IH (lines ++ [cur]) (word ++ str " ")
                   (record (MeasureText (cur ++ word ++ str " ")) s))
        as [Hl Hc]; auto.
      * apply Forall_app. split; [exact Hlines|]. now constructor.
      * right. now apply token_fragmentOk.
      * split; [exact Hl|]. right.
        destruct Hc as [[_ ->]|Hc]; [now apply token_fragmentOk|exact Hc].
    + assert (Hok : fragmentOk measure f W tokens (cur ++ word ++ str " ")).
      { apply andb_false_iff in E as [Hle|Hnil].
        - left. apply Qgtb_false in Hle. now rewrite <- Hf.
        - apply negb_false_iff, strictEq_spec in Hnil. subst cur.
          now apply token_fragmentOk. }
      destruct (IH lines (cur ++ word ++ str " ")
                   (record (MeasureText (cur ++ word ++ str " ")) s))
        as [Hl Hc]; auto.
      split; [exact Hl|]. right.
      destruct Hc as [[_ ->]|Hc]; [exact Hok|exact Hc].
Qed.

Lemma wrapText_lines (text : jsstring) (W : Q) (s : Surface) :
  fst (wrapText measure text W s)
  = fst (fst (wrapWords measure (split 32%N text) W [] [] s))
    ++ [snd (fst (wrapWords measure (split 32%N text) W [] [] s))].
Proof.
  unfold wrapText, bind, ret.
  destruct (wrapWords measure (split 32%N text) W [] [] s) as [[ls c] s'].
  reflexivity.
Qed.

Lemma wrapText_surface (text : jsstring) (W : Q) (s : Surface) :
  snd (wrapText measure text W s)
  = snd (wrapWords measure (split 32%N text) W [] [] s).
Proof.
  unfold wrapText, bind, ret.
  destruct (wrapWords measure (split 32%N text) W [] [] s) as [[ls c] s'].
  reflexivity.
Qed.

Lemma concat_spaced (ws : list jsstring) :
  ws <> [] ->
  concat (map (fun w => w ++ str " ") ws) = join 32%N ws ++ str " ".
Proof.
  induction ws as [|w ws IH]; intro Hne; [contradiction|].
  destruct ws as [|w' ws].
  - simpl. now rewrite app_nil_r.
  - change (concat (map (fun w => w ++ str " ") (w :: w' :: ws)))
      with ((w ++ str " ") ++ concat (map (fun w => w ++ str " ") (w' :: ws))).
    rewrite IH by discriminate.
    change (join 32%N (w :: w' :: ws)) with (w ++ 32%N :: join 32%N (w' :: ws)).
    rewrite <- !app_assoc. reflexivity.
Qed.

End WrapFacts.

(** C6: every fragment the word wrap returns measures at most [W] under
    the font of the context, except a fragment that is one token with its
    trailing space and measures more than [W].  No assumption on the
    measurement is needed, monotone or not. *)
Theorem wrap_fragments_fit_or_single_token
        (measure : jsstring -> jsstring -> Q)
        (text : jsstring) (W : Q) (s : Surface) :
  Forall (fragmentOk measure (font s) W (split 32%N text))
         (fst (wrapText measure text W s)).
Proof.
  rewrite wrapText_lines.
  destruct (wrapWords_ok measure (split 32%N text) (font s) W (split 32%N text)
                         [] [] s) as [Hl Hc]; auto using incl_refl.
  apply Forall_app. split; [exact Hl|].
  constructor; [|constructor].
  destruct Hc as [[Hnil _]|Hc]; [|exact Hc].
  now apply split_not_nil in Hnil.
Qed.

(** C10: the fragments the word wrap returns, concatenated, are the text
    followed by one more space, and there is always at least one fragment
    (also for the empty text). *)
Theorem wrap_concat_text_space
        (measure : jsstring -> jsstring -> Q)
        (text : jsstring) (W : Q) (s : Surface) :
  concat (fst (wrapText measure text W s)) = text ++ str " "
  /\ fst (wrapText measure text W s) <> [].
Proof.
  rewrite wrapText_lines. split.
  - rewrite concat_app. simpl concat at 2. rewrite app_nil_r.
    rewrite (wrapWords_concat measure (split 32%N text) W [] [] s).
    simpl. rewrite concat_spaced by apply split_not_nil.
    now rewrite join_split.
  - intro H. apply app_eq_nil in H as [_ H]. discriminate.
Qed.

(* ================================================================== *)
(** ** Rendering a page *)
(* ================================================================== *)

Section RenderFacts.

Variable measure : jsstring -> jsstring -> Q.
Variable encode : list Call -> jsstring.

Lemma fillTexts_measured (cs : list Call) (measured : list jsstring) :
  fillTexts (cs ++ map MeasureText measured) = fillTexts cs.
Proof.
  unfold fillTexts. rewrite filter_app.
  replace (filter isFillText (map MeasureText measured)) with (@nil Call).
  - apply app_nil_r.
  - induction measured as [|t ts IH]; simpl; [reflexivity|exact IH].
Qed.

Lemma measured_bodyCallOk (measured : list jsstring) :
  Forall bodyCallOk (map MeasureText measured).
Proof.
  induction measured as [|t ts IH]; simpl; constructor; [exact I|exact IH].
Qed.

(** The word wrap leaves the history as it was, plus its measurements,
    of which there is at least one. *)
Lemma wrapText_calls (text : jsstring) (W : Q) (s : Surface) :
  exists t measured,
    calls (snd (wrapText measure text W s))
    = calls s ++ map MeasureText (t :: measured).
Proof.
  rewrite wrapText_surface.
  destruct (wrapWords_calls measure (split 32%N text) W [] [] s)
    as (_ & _ & ms & Hc & Hlen).
  destruct ms as [|t ms].
  - pose proof (split_not_nil 32%N text) as Hne.
    destruct (split 32%N text); [contradiction|discriminate].
  - exists t, ms. exact Hc.
Qed.

Lemma drawLines_step (line : jsstring) (rest : list jsstring) (y : Z) (s : Surface) :
  drawLines (line :: rest) y s
  = if y >? height - 100 then (y, s)
    else drawLines rest (y + lineHeight) (record (FillText line margin y) s).
Proof.
  cbn [drawLines]. destruct (y >? height - 100); reflexivity.
Qed.

(** Past the boundary the inner loop does nothing. *)
Lemma drawLines_past (lines : list jsstring) (y : Z) (s : Surface) :
  height - 100 < y -> drawLines lines y s = (y, s).
Proof.
  intro Hy. destruct lines as [|line rest]; [reflexivity|].
  rewrite drawLines_step.
  destruct (Z.gtb_spec y (height - 100)); [reflexivity|lia].
Qed.

(** The inner loop draws at or above the boundary only, and the cursor
    does not go back. *)
Lemma drawLines_calls (lines : list jsstring) :
  forall (y : Z) (s : Surface),
    y <= fst (drawLines lines y s)
    /\ exists drawn,
        calls (snd (drawLines lines y s)) = calls s ++ drawn
        /\ Forall bodyCallOk drawn.
Proof.
  induction lines as [|line rest IH]; intros y s.
  - simpl. split; [lia|]. exists []. split; [now rewrite app_nil_r|constructor].
  - rewrite drawLines_step.
    destruct (Z.gtb_spec y (height - 100)) as [Hgt|Hle].
    + simpl. split; [lia|]. exists []. split; [now rewrite app_nil_r|constructor].
    + destruct (IH (y + lineHeight) (record (FillText line margin y) s))
        as (Hy & drawn & Hc & Hok).
      split; [unfold lineHeight in *; lia|].
      exists (FillText line margin y :: drawn). split.
      * rewrite Hc. simpl. now rewrite <- app_assoc.
      * constructor; [exact Hle|exact Hok].
Qed.

Lemma drawParagraphs_step (page : PageContent) (paragraph : jsstring)
      (rest : list jsstring) (y : Z) (s : Surface) :
  drawParagraphs measure page (paragraph :: rest) y s
  = if strictEq paragraph (title page) && (pageNumber page =? 1)
    then drawParagraphs measure page rest y s
    else
      let ws := wrapText measure paragraph (inject_Z maxWidth) s in
      let ds := drawLines (fst ws) y (snd ws) in
      drawParagraphs measure page rest (fst ds + 20) (snd ds).
Proof.
  cbn [drawParagraphs]. unfold bind.
  destruct (strictEq paragraph (title page) && (pageNumber page =? 1));
    [reflexivity|].
  destruct (wrapText measure paragraph (inject_Z maxWidth) s) as [ls s1].
  cbn [fst snd]. destruct (drawLines ls y s1) as [y1 s2]. reflexivity.
Qed.

(** The body loop measures, and draws at or above the boundary only. *)
Lemma drawParagraphs_calls (page : PageContent) (paragraphs : list jsstring) :
  forall (y : Z) (s : Surface),
    y <= fst (drawParagraphs measure page paragraphs y s)
    /\ exists body,
        calls (snd (drawParagraphs measure page paragraphs y s)) = calls s ++ body
        /\ Forall bodyCallOk body.
Proof.
  induction paragraphs as [|paragraph rest IH]; intros y s.
  - simpl. split; [lia|]. exists []. split; [now rewrite app_nil_r|constructor].
  - rewrite drawParagraphs_step.
    destruct (strictEq paragraph (title page) && (pageNumber page =? 1));
      [apply IH|]. cbv zeta.
    destruct (wrapText_calls paragraph (inject_Z maxWidth) s) as (t & ms & Hw).
    destruct (drawLines_calls
                (fst (wrapText measure paragraph (inject_Z maxWidth) s)) y
                (snd (wrapText measure paragraph (inject_Z maxWidth) s)))
      as (Hy1 & drawn & Hd & Hdok).
    match goal with
    | |- context [drawParagraphs measure page rest ?y1 ?s1] =>
        destruct (IH y1 s1) as (Hy2 & body & Hb & Hbok)
    end.
    split; [lia|].
    exists (map MeasureText (t :: ms) ++ drawn ++ body). split.
    + rewrite Hb, Hd, Hw. now rewrite <- !app_assoc.
    + apply Forall_app. split; [apply measured_bodyCallOk|].
      apply Forall_app. split; assumption.
Qed.

(** Past the boundary the body loop draws nothing more, whatever is
    left to process. *)
Lemma drawParagraphs_past (page : PageContent) (paragraphs : list jsstring) :
  forall (y : Z) (s : Surface),
    height - 100 < y ->
    fillTexts (calls (snd (drawParagraphs measure page paragraphs y s)))
    = fillTexts (calls s).
Proof.
  induction paragraphs as [|paragraph rest IH]; intros y s Hy.
  - reflexivity.
  - rewrite drawParagraphs_step.
    destruct (strictEq paragraph (title page) && (pageNumber page =? 1));
      [now apply IH|]. cbv zeta.
    rewrite drawLines_past by exact Hy. cbn [fst snd].
    rewrite IH by lia.
    destruct (wrapText_calls paragraph (inject_Z maxWidth) s) as (t & ms & Hw).
    rewrite Hw. apply fillTexts_measured.
Qed.

Lemma drawParagraphs_app (page : PageContent) (before after : list jsstring) :
  forall (y : Z) (s : Surface),
    drawParagraphs measure page (before ++ after) y s
    = let r := drawParagraphs measure page before y s in
      drawParagraphs measure page after (fst r) (snd r).
Proof.
  induction before as [|paragraph rest IH]; intros y s; [reflexivity|].
  rewrite <- app_comm_cons, !drawParagraphs_step.
  destruct (strictEq paragraph (title page) && (pageNumber page =? 1));
    [apply IH|]. cbv zeta. apply IH.
Qed.

(** The page renderer, its loops aside. *)
Lemma drawPage_body (page : PageContent) :
  let s0 := mkSurface bodyFont (str "#333333") (headerCalls page) in
  let r := drawParagraphs measure page (content page) (margin + 50 + 100) s0 in
  calls (snd (drawPage measure encode page fresh))
  = calls (snd r) ++ footerCalls page
  /\ fst (drawPage measure encode page fresh)
     = encode (calls (snd r) ++ firstn 3 (footerCalls page)).
Proof.
  cbv zeta. unfold drawPage, bind, setWidth, setHeight, setFillStyle, setFont,
    fillRect, fillText, toDataURL, record, fresh. cbn [calls font fillStyle app].
  change [SetWidth width; SetHeight height; SetFillStyle (str "#ffffff");
          FillRect 0 0 width height; SetFillStyle (str "#333333");
          SetFont titleFont; FillText (title page) margin (margin + 50);
          SetFont bodyFont]
    with (headerCalls page).
  destruct (drawParagraphs measure page (content page) (margin + 50 + 100) _)
    as [y s1].
  cbn [fst snd calls font fillStyle]. rewrite <- !app_assoc. split; reflexivity.
Qed.

End RenderFacts.

(** C7: the calls of a rendered page are the header, the body and the
    footer; no body call draws below the bottom content boundary
    ([height - 100]); once the cursor is past the boundary the rest of the
    paragraph and all later paragraphs draw nothing; and the footer, with
    the text "pageNumber/totalPages", comes after whatever body there
    was. *)
Theorem body_stops_at_boundary_footer_stays
        (measure : jsstring -> jsstring -> Q) (encode : list Call -> jsstring)
        (page : PageContent) (fileName : jsstring) :
  (exists body,
      snd (generateSinglePageImage measure encode true page fileName)
      = headerCalls page ++ body ++ footerCalls page
      /\ Forall bodyCallOk body)
  /\ (forall lines y s, height - 100 < y -> drawLines lines y s = (y, s))
  /\ (forall paragraphs y s,
         height - 100 < y ->
         fillTexts (calls (snd (drawParagraphs measure page paragraphs y s)))
         = fillTexts (calls s)).
Proof.
  split; [|split].
  - unfold generateSinglePageImage.
    destruct (drawPage_body measure encode page) as [Hc _]. cbv zeta in Hc.
    destruct (drawPage measure encode page fresh) as [img s1]. cbn [snd] in *.
    destruct (drawParagraphs_calls measure page (content page) (margin + 50 + 100)
                (mkSurface bodyFont (str "#333333") (headerCalls page)))
      as (_ & body & Hb & Hok).
    exists body. split; [|exact Hok].
    rewrite Hc, Hb. cbn [calls]. now rewrite <- app_assoc.
  - intros lines y s Hy. now apply drawLines_past.
  - intros paragraphs y s Hy. now apply drawParagraphs_past.
Qed.

Lemma body_stops_at_boundary_footer_stays_witness :
  height - 100 < 1341
  /\ fillTexts (calls (snd (drawParagraphs sampleMeasure
                              (mkPage (str "T") [str "a b"; str "c"] 1 1)
                              [str "a b"; str "c"] 1341 fresh)))
     = fillTexts (calls fresh).
Proof.
  split; [vm_compute; reflexivity|].
  apply (proj2 (proj2 (body_stops_at_boundary_footer_stays
                         sampleMeasure sampleEncode
                         (mkPage (str "T") [str "a b"; str "c"] 1 1) []))).
  vm_compute. reflexivity.
Defined.

(** C8: in the body loop a paragraph is passed over (nothing measured,
    nothing drawn, the cursor not moved) exactly when it equals the
    page's title and the page number is 1; any other paragraph is at
    least measured; and the loop treats each paragraph on its own,
    wherever it stands in the page. *)
Theorem title_line_skipped_on_page_one_only
        (measure : jsstring -> jsstring -> Q) (page : PageContent) :
  (forall paragraph y s,
      drawParagraphs measure page [paragraph] y s = (y, s)
      <-> (paragraph = title page /\ pageNumber page = 1))
  /\ (forall paragraph y s,
         ~ (paragraph = title page /\ pageNumber page = 1) ->
         exists t measured,
           calls (snd (drawParagraphs measure page [paragraph] y s))
           = calls s ++ MeasureText t :: measured)
  /\ (forall before paragraph after y s,
         drawParagraphs measure page (before ++ paragraph :: after) y s
         = let r1 := drawParagraphs measure page before y s in
           let r2 := drawParagraphs measure page [paragraph] (fst r1) (snd r1) in
           drawParagraphs measure page after (fst r2) (snd r2)).
Proof.
  assert (Hcond : forall paragraph,
             strictEq paragraph (title page) && (pageNumber page =? 1) = true
             <-> (paragraph = title page /\ pageNumber page = 1)).
  { intro paragraph. rewrite andb_true_iff, strictEq_spec, Z.eqb_eq. tauto. }
  split; [|split].
  - intros paragraph y s. rewrite <- Hcond, drawParagraphs_step.
    destruct (strictEq paragraph (title page) && (pageNumber page =? 1)).
    + simpl. tauto.
    + cbv zeta. cbn [drawParagraphs]. unfold ret. split; [|discriminate].
      intro H. exfalso.
      pose proof (proj1 (drawLines_calls
                    (fst (wrapText measure paragraph (inject_Z maxWidth) s)) y
                    (snd (wrapText measure paragraph (inject_Z maxWidth) s)))) as Hy.
      apply (f_equal fst) in H. cbn [fst] in H. lia.
  - intros paragraph y s Hno. rewrite drawParagraphs_step.
    destruct (strictEq paragraph (title page) && (pageNumber page =? 1)) eqn:E;
      [apply Hcond in E; contradiction|].
    cbv zeta. cbn [drawParagraphs]. unfold ret. cbn [snd].
    destruct (wrapText_calls measure paragraph (inject_Z maxWidth) s)
      as (t & ms & Hw).
    destruct (drawLines_calls
                (fst (wrapText measure paragraph (inject_Z maxWidth) s)) y
                (snd (wrapText measure paragraph (inject_Z maxWidth) s)))
      as (_ & drawn & Hd & _).
    exists t, (map MeasureText ms ++ drawn).
    rewrite Hd, Hw. simpl. now rewrite <- app_assoc.
  - intros before paragraph after y s.
    rewrite drawParagraphs_app. cbv zeta.
    change (paragraph :: after) with ([paragraph] ++ after).
    now rewrite drawParagraphs_app.
Qed.

Lemma title_line_skipped_on_page_one_only_witness :
  drawParagraphs sampleMeasure (mkPage (str "T") [str "T"; str "x"; str "T"] 1 1)
                 [str "T"] 210 fresh
  = (210, fresh).
Proof.
  apply (proj1 (title_line_skipped_on_page_one_only
                  sampleMeasure
                  (mkPage (str "T") [str "T"; str "x"; str "T"] 1 1))).
  split; reflexivity.
Defined.

(* ================================================================== *)
(** ** The batch driver *)
(* ================================================================== *)

Section DriverFacts.

Variable measure : jsstring -> jsstring -> Q.
Variable encode : list Call -> jsstring.
Variable acquire : nat -> bool.

(** [toDataURL] gives a data URL, which is never the empty string. *)
Hypothesis encode_data_url : forall cs, encode cs <> [].

Lemma generateSinglePageImage_result (acquired : bool) (page : PageContent)
      (fileName : jsstring) :
  fst (generateSinglePageImage measure encode acquired page fileName)
  = if acquired then Some (fst (drawPage measure encode page fresh)) else None.
Proof.
  unfold generateSinglePageImage. destruct acquired; [|reflexivity].
  destruct (drawPage measure encode page fresh). reflexivity.
Qed.

Lemma drawPage_truthy (page : PageContent) :
  truthy (fst (drawPage measure encode page fresh)) = true.
Proof.
  destruct (drawPage_body measure encode page) as [_ Himg]. cbv zeta in Himg.
  rewrite Himg.
  destruct (truthy _) eqn:E; [reflexivity|].
  apply truthy_nil_iff in E. now apply encode_data_url in E.
Qed.

(** The loop appends, in page order, the image of every page whose
    context was acquired. *)
Lemma renderPages_images (ps : list PageContent) (fileName : jsstring) :
  forall (k : nat) (images : list jsstring),
    renderPages measure encode acquire k ps fileName images
    = images ++ map (fun kp => fst (drawPage measure encode (snd kp) fresh))
                    (filter (fun kp => acquire (fst kp))
                            (combine (seq k (length ps)) ps)).
Proof.
  induction ps as [|page rest IH]; intros k images.
  - simpl. now rewrite app_nil_r.
  - cbn [renderPages length seq combine filter fst].
    rewrite generateSinglePageImage_result.
    destruct (acquire k).
    + rewrite drawPage_truthy, IH. cbn [map snd]. now rewrite <- app_assoc.
    + apply IH.
Qed.

End DriverFacts.

(** C9: rendering a page returns nothing exactly when the 2d context
    could not be acquired, and then no call is made on the canvas (nothing
    drawn, nothing encoded); the batch driver leaves such a page out and
    goes on: its result holds, in page order, the image of every page
    whose context was acquired. *)
Theorem absent_page_skipped_batch_goes_on
        (measure : jsstring -> jsstring -> Q) (encode : list Call -> jsstring)
        (acquire : nat -> bool)
        (encode_data_url : forall cs, encode cs <> []) :
  (forall acquired page fileName,
      fst (generateSinglePageImage measure encode acquired page fileName) = None
      <-> acquired = false)
  /\ (forall page fileName,
         snd (generateSinglePageImage measure encode false page fileName) = [])
  /\ (forall text fileName,
         generateRedNoteImages measure encode acquire text fileName
         = map (fun kp => fst (drawPage measure encode (snd kp) fresh))
               (filter (fun kp => acquire (fst kp))
                       (indexed (splitContentIntoPages
                                   (Regex.replaceFrontMatter text))))).
Proof.
  split; [|split].
  - intros acquired page fileName. rewrite generateSinglePageImage_result.
    destruct acquired; split; congruence.
  - reflexivity.
  - intros text fileName. unfold generateRedNoteImages, indexed.
    now rewrite renderPages_images.
Qed.

Lemma sampleEncode_data_url (cs : list Call) : sampleEncode cs <> [].
Proof. unfold sampleEncode. simpl. discriminate. Qed.

Lemma absent_page_skipped_batch_goes_on_witness :
  (forall cs, sampleEncode cs <> [])
  /\ generateRedNoteImages sampleMeasure sampleEncode sampleAcquire
       thirteenLines []
     = [str "data:13"].
Proof.
  split; [exact sampleEncode_data_url|].
  rewrite (proj2 (proj2 (absent_page_skipped_batch_goes_on
                           sampleMeasure sampleEncode sampleAcquire
                           sampleEncode_data_url))).
  vm_compute. reflexivity.
Defined.


(* ================================================================== *)
(** ** Front-matter stripping *)
(* ================================================================== *)

Lemma literal_spec (lit : jsstring) :
  forall s rest, Regex.literal lit s = Some rest <-> s = lit ++ rest.
Proof.
  induction lit as [|a lit IH]; intros s rest; simpl.
  - split; congruence.
  - destruct s as [|b s]; [split; discriminate|].
    destruct (N.eqb_spec a b) as [->|Hne].
    + rewrite IH. split; congruence.
    + split; [discriminate|]. intro H. injection H as H _. congruence.
Qed.

Lemma literal_none (lit s : jsstring) :
  Regex.literal lit s = None -> forall rest, s <> lit ++ rest.
Proof.
  intros Hnone rest Heq. apply literal_spec in Heq. congruence.
Qed.

(** The lazy quantifier stops at the first place where the literal
    follows. *)
Lemma lazyAnyThen_some (lit : jsstring) :
  forall s rest,
    Regex.lazyAnyThen lit s = Some rest ->
    exists mid,
      s = mid ++ lit ++ rest
      /\ forall a b, s = a ++ lit ++ b -> (length mid <= length a)%nat.
Proof.
  induction s as [|c s IH]; intros rest H; simpl in H.
  - destruct (Regex.literal lit []) as [r|] eqn:E; [|discriminate].
    injection H as ->. apply literal_spec in E. exists [].
    split; [exact E|]. intros; simpl; lia.
  - destruct (Regex.literal lit (c :: s)) as [r|] eqn:E.
    + injection H as ->. apply literal_spec in E. exists [].
      split; [exact E|]. intros; simpl; lia.
    + destruct (IH rest H) as (mid & Hs & Hmin).
      exists (c :: mid). split; [simpl; now rewrite <- Hs|].
      intros a b Hab. destruct a as [|c' a].
      * exfalso. exact (literal_none _ _ E b Hab).
      * simpl in Hab. injection Hab as _ Hab. simpl.
        specialize (Hmin a b Hab). lia.
Qed.

Lemma lazyAnyThen_none (lit : jsstring) :
  forall s, Regex.lazyAnyThen lit s = None -> forall a b, s <> a ++ lit ++ b.
Proof.
  induction s as [|c s IH]; intros H a b Hab; simpl in H.
  - destruct (Regex.literal lit []) eqn:E; [discriminate|].
    destruct a; [|discriminate]. exact (literal_none _ _ E b Hab).
  - destruct (Regex.literal lit (c :: s)) eqn:E; [discriminate|].
    destruct a as [|c' a].
    + exact (literal_none _ _ E b Hab).
    + simpl in Hab. injection Hab as _ Hab. exact (IH H a b Hab).
Qed.

(** C5, as the code has it: the stripping removes a leading block exactly
    when the text starts with the three dashes and, from there on, three
    dashes followed by a line break occur; neither marker has to stand on
    a line of its own.  What is removed runs from the start of the text to
    the first such closing (the shortest match); a text that does not
    start with the dashes is left as it is; and the pages are made from
    the stripped text. *)
Theorem front_matter_first_closing
        (measure : jsstring -> jsstring -> Q) (encode : list Call -> jsstring)
        (acquire : nat -> bool) (text fileName : jsstring) :
  ((Regex.replaceFrontMatter text = text
    /\ forall mid rest, text <> Regex.opening ++ mid ++ Regex.closing ++ rest)
   \/ (exists mid rest,
          text = Regex.opening ++ mid ++ Regex.closing ++ rest
          /\ Regex.replaceFrontMatter text = rest
          /\ forall a b, mid ++ Regex.closing ++ rest = a ++ Regex.closing ++ b ->
                         (length mid <= length a)%nat))
  /\ (Regex.literal Regex.opening text = None ->
      Regex.replaceFrontMatter text = text)
  /\ generateRedNoteImages measure encode acquire text fileName
     = renderPages measure encode acquire 0
                   (splitContentIntoPages (Regex.replaceFrontMatter text))
                   fileName [].
Proof.
  split; [|split].
  - unfold Regex.replaceFrontMatter, Regex.frontMatter.
    destruct (Regex.literal Regex.opening text) as [after|] eqn:Eo.
    + apply literal_spec in Eo. subst text.
      destruct (Regex.lazyAnyThen Regex.closing after) as [rest|] eqn:Ec.
      * right. destruct (lazyAnyThen_some _ _ _ Ec) as (mid & Hs & Hmin).
        exists mid, rest. subst after. auto.
      * left. split; [reflexivity|]. intros mid rest H.
        apply app_inv_head in H.
        exact (lazyAnyThen_none _ _ Ec mid rest H).
    + left. split; [reflexivity|]. intros mid rest H.
      exact (literal_none _ _ Eo _ H).
  - intro Eo. unfold Regex.replaceFrontMatter, Regex.frontMatter.
    now rewrite Eo.
  - reflexivity.
Qed.

Lemma front_matter_first_closing_witness :
  Regex.replaceFrontMatter (str "x---" ++ [10%N] ++ str "---" ++ [10%N] ++ str "body")
  = str "x---" ++ [10%N] ++ str "---" ++ [10%N] ++ str "body".
Proof.
  apply (proj1 (proj2 (front_matter_first_closing
                         sampleMeasure sampleEncode sampleAcquire
                         (str "x---" ++ [10%N] ++ str "---" ++ [10%N] ++ str "body")
                         []))).
  vm_compute. reflexivity.
Defined.

(** Against C5 as the specification words it: this text has no marker on
    a line of its own, and the stripping still removes its first line. *)
Lemma front_matter_without_marker_lines :
  ownLineBlock (str "--- draft ---" ++ [10%N] ++ str "body") = false
  /\ Regex.replaceFrontMatter (str "--- draft ---" ++ [10%N] ++ str "body")
     = str "body".
Proof. split; vm_compute; reflexivity. Qed.

(* ================================================================== *)
(** ** The scenarios of the specification *)
(* ================================================================== *)

(** Twenty non-blank lines: two pages, of twelve and of eight lines, the
    first titled by the first line, the second by the continuation
    title. *)
Example twenty_lines_two_pages :
  map (fun p => (title p, length (content p), pageNumber p, totalPages p))
      (splitContentIntoPages
         (join 10%N (str "Title Line" :: repeat (str "Body line") 19)))
  = [(str "Title Line", 12%nat, 1, 2); (continueTitle, 8%nat, 2, 2)].
Proof. vm_compute. reflexivity. Qed.

(** A front-matter block and one line of text: one page with one line. *)
Example front_matter_then_one_line :
  map content
      (splitContentIntoPages
         (Regex.replaceFrontMatter
            (str "---" ++ [10%N] ++ str "key: value" ++ [10%N]
                 ++ str "---" ++ [10%N] ++ str "one line")))
  = [[str "one line"]].
Proof. vm_compute. reflexivity. Qed.

(** A page-one line that equals the title is passed over wherever it
    stands; on a later page a line that equals the title is drawn. *)
Example title_twice_on_page_one :
  fillTexts (snd (generateSinglePageImage sampleMeasure sampleEncode true
                    (mkPage (str "T") [str "T"; str "x"; str "T"] 1 1) []))
  = [FillText (str "T") 60 110; FillText (str "x ") 60 210;
     FillText (str "1/1") 980 1390].
Proof. vm_compute. reflexivity. Qed.

Example title_line_on_page_two :
  fillTexts (snd (generateSinglePageImage sampleMeasure sampleEncode true
                    (mkPage continueTitle [continueTitle] 2 2) []))
  = [FillText continueTitle 60 110; FillText (continueTitle ++ str " ") 60 210;
     FillText (str "2/2") 980 1390].
Proof. vm_compute. reflexivity. Qed.

(** A token wider than the line passes through on a fragment of its own. *)
Example wide_token_alone :
  fst (wrapText sampleMeasure
         (str "ab " ++ repeat 99%N 60 ++ str " cd") (inject_Z maxWidth) fresh)
  = [str "ab "; repeat 99%N 60 ++ str " "; str "cd "].
Proof. vm_compute. reflexivity. Qed.

(** A page whose wrapped content does not fit: of its sixty fragments the
    first twenty-two are drawn, the last of them on the boundary, and the
    footer is drawn all the same. *)
Example overflow_dropped_footer_drawn :
  map (fun c => match c with FillText _ _ y => y | _ => 0 end)
      (fillTexts (snd (generateSinglePageImage sampleMeasure sampleEncode true
                         crowdedPage [])))
  = [110;
     210; 260; 310; 360; 410;
     480; 530; 580; 630; 680;
     750; 800; 850; 900; 950;
     1020; 1070; 1120; 1170; 1220;
     1290; 1340;
     1390].
Proof. vm_compute. reflexivity. Qed.

(* ================================================================== *)
(** ** The paginator: how the lines are cut *)
(* ================================================================== *)

(** The pages are none at all, or full pages followed by one last page
    that holds between one and twelve lines. *)
Lemma splitRun_shape (paragraphs : list jsstring) :
  let ps := pages (splitRun paragraphs (length paragraphs)) in
  (paragraphs = [] /\ ps = [])
  \/ exists full lastPage,
      ps = full ++ [lastPage]
      /\ Forall (fun p => length (content p) = 12%nat) full
      /\ (1 <= length (content lastPage) <= 12)%nat.
Proof.
  cbv zeta. destruct (length paragraphs) as [|m] eqn:Hlen.
  - left. apply length_zero_iff_nil in Hlen. subst. split; reflexivity.
  - right. rewrite (splitRun_last paragraphs m Hlen). cbv zeta.
    assert (Hm : (m < length paragraphs)%nat) by lia.
    destruct (SplitInv_run paragraphs m Hm) as [_ Hr Hf _ _ _ _].
    eexists _, _. split; [reflexivity|]. split; [exact Hf|].
    simpl. rewrite length_app. simpl. lia.
Qed.

Lemma chunks_of_concat (full : list PageContent) (lastPage : PageContent) :
  forall L : list jsstring,
    Forall (fun p => length (content p) = 12%nat) full ->
    (length (content lastPage) <= 12)%nat ->
    concat (map content (full ++ [lastPage])) = L ->
    map content (full ++ [lastPage])
    = map (fun j => firstn 12 (skipn (12 * j) L))
          (seq 0 (length (full ++ [lastPage]))).
Proof.
  induction full as [|p full IH]; intros L Hfull Hlast HL.
  - cbn [app map concat length seq] in *. rewrite app_nil_r in HL. subst L.
    rewrite Nat.mul_0_r. cbn [skipn].
    rewrite firstn_all2 by exact Hlast. reflexivity.
  - inversion Hfull as [|? ? Hp Hfull']; subst.
    cbn [app map concat length seq].
    remember (concat (map content (full ++ [lastPage]))) as L' eqn:HL'.
    rewrite <- seq_shift, map_map.
    f_equal.
    + rewrite Nat.mul_0_r. cbn [skipn].
      rewrite firstn_app, Hp, Nat.sub_diag, firstn_O, app_nil_r.
      symmetry. apply firstn_all2. lia.
    + rewrite (IH L' Hfull' Hlast eq_refl).
      apply map_ext. intro j.
      rewrite skipn_app, Hp.
      assert (Hs : skipn (12 * S j) (content p) = [])
        by (apply skipn_all2; lia).
      rewrite Hs.
      replace (12 * S j - 12)%nat with (12 * j)%nat by lia.
      reflexivity.
Qed.

Lemma splitContentIntoPages_nil (D : jsstring) :
  splitContentIntoPages D = [] <-> nonBlankLines D = [].
Proof.
  destruct (splitContentIntoPages_paginated D) as [Hl Hne _ _ _ _ _].
  split; intro H.
  - rewrite H in Hl. simpl in Hl. now symmetry.
  - rewrite H in Hl. destruct (splitContentIntoPages D) as [|p ps]; [reflexivity|].
    inversion Hne as [|? ? Hp _]; subst. simpl in Hl.
    apply app_eq_nil in Hl as [Hl _]. contradiction.
Qed.

(** X1: every page but the last holds exactly twelve lines, and every
    page, the last included, holds between one and twelve. *)
Theorem pages_full_but_last (D : jsstring) :
  Forall (fun p => length (content p) = 12%nat)
         (removelast (splitContentIntoPages D))
  /\ Forall (fun p => (1 <= length (content p) <= 12)%nat)
            (splitContentIntoPages D).
Proof.
  unfold splitContentIntoPages. cbv zeta.
  destruct (splitRun_shape (paragraphsOf D)) as [[_ Hnil]|(full & lp & Hps & Hf & Hl)];
    cbv zeta in *; unfold splitRun in *.
  - rewrite Hnil. split; constructor.
  - rewrite Hps. rewrite removelast_last. split; [exact Hf|].
    apply Forall_app. split.
    + eapply Forall_impl; [|exact Hf]. intros p Hp. simpl in Hp. lia.
    + constructor; [exact Hl|constructor].
Qed.

(** X2: page [j] (from 0) holds the non-blank lines [12 j] to
    [12 j + 11], as far as there are any: the pages are the consecutive
    slices of twelve. *)
Theorem pages_are_slices_of_twelve (D : jsstring) :
  map content (splitContentIntoPages D)
  = map (fun j => firstn 12 (skipn (12 * j) (nonBlankLines D)))
        (seq 0 (length (splitContentIntoPages D))).
Proof.
  pose proof (splitContentIntoPages_paginated D) as Hpag.
  destruct Hpag as [Hlines _ _ _ _ _ _].
  revert Hlines. unfold splitContentIntoPages. cbv zeta.
  destruct (splitRun_shape (paragraphsOf D)) as [[_ Hnil]|(full & lp & Hps & Hf & Hl)];
    cbv zeta in *; unfold splitRun in *.
  - rewrite Hnil. reflexivity.
  - rewrite Hps. intro Hlines. apply chunks_of_concat; [exact Hf|lia|exact Hlines].
Qed.

(* ================================================================== *)
(** ** The word wrap: whole tokens, one measurement each *)
(* ================================================================== *)

Lemma spaced_app (g h : list jsstring) : spaced (g ++ h) = spaced g ++ spaced h.
Proof. unfold spaced. now rewrite map_app, concat_app. Qed.

Lemma spaced_one (word : jsstring) : spaced [word] = word ++ str " ".
Proof. unfold spaced. simpl. now rewrite app_nil_r. Qed.

Lemma spaced_nil (g : list jsstring) : spaced g = [] -> g = [].
Proof.
  destruct g as [|w g]; [reflexivity|]. unfold spaced. simpl. intro H.
  apply app_eq_nil in H as [H _]. apply app_eq_nil in H as [_ H]. discriminate.
Qed.

Section WrapGroups.

Variable measure : jsstring -> jsstring -> Q.

(** The loop keeps whole tokens together: its lines and its current line
    are groups of tokens, and the groups in order are the tokens in
    order. *)
Lemma wrapWords_groups (W : Q) (words : list jsstring) :
  forall (gs : list (list jsstring)) (g : list jsstring) (s : Surface),
    Forall (fun g => g <> []) gs ->
    let r := fst (wrapWords measure words W (map spaced gs) (spaced g) s) in
    exists gs' g',
      fst r = map spaced gs'
      /\ snd r = spaced g'
      /\ concat gs' ++ g' = concat gs ++ g ++ words
      /\ Forall (fun g => g <> []) gs'
      /\ (g <> [] \/ words <> [] -> g' <> []).
Proof.
  induction words as [|word rest IH]; intros gs g s Hgs; cbv zeta.
  - simpl. exists gs, g. rewrite app_nil_r. repeat split; auto.
    intros [H|H]; [exact H|contradiction].
  - rewrite wrapWords_step.
    destruct (Qgtb _ W && _) eqn:E.
    + apply andb_true_iff in E as [_ Hne]. apply negb_true_iff in Hne.
      assert (Hg : g <> []).
      { intro Hnil. subst g. discriminate Hne. }
      rewrite <- spaced_one.
      replace (map spaced gs ++ [spaced g]) with (map spaced (gs ++ [g]))
        by (rewrite map_app; reflexivity).
      destruct (IH (gs ++ [g]) [word]
                   (record (MeasureText (spaced g ++ spaced [word])) s))
        as (gs' & g' & H1 & H2 & H3 & H4 & H5).
      { apply Forall_app. split; [exact Hgs|]. now constructor. }
      exists gs', g'. repeat split; auto.
      * rewrite H3, concat_app. simpl. rewrite app_nil_r, <- app_assoc.
        reflexivity.
      * intros _. apply H5. left. discriminate.
    + rewrite <- spaced_one, <- spaced_app.
      destruct (IH gs (g ++ [word]) (record (MeasureText (spaced (g ++ [word]))) s)
                   Hgs)
        as (gs' & g' & H1 & H2 & H3 & H4 & H5).
      exists gs', g'. repeat split; auto.
      * rewrite H3, <- app_assoc. reflexivity.
      * intros _. apply H5. left. intro Hnil.
        apply app_eq_nil in Hnil as [_ Hnil]. discriminate.
Qed.

(** While every test line fits, the loop only appends. *)
Lemma wrapWords_fits (W : Q) (f : jsstring) (words : list jsstring) :
  forall (lines : list jsstring) (cur : jsstring) (s : Surface),
    font s = f ->
    (forall j, (1 <= j <= length words)%nat ->
               (measure f (cur ++ spaced (firstn j words)) <= W)%Q) ->
    fst (wrapWords measure words W lines cur s) = (lines, cur ++ spaced words).
Proof.
  induction words as [|word rest IH]; intros lines cur s Hf Hfit.
  - simpl. unfold spaced. simpl. now rewrite app_nil_r.
  - rewrite wrapWords_step.
    assert (H1 : Qgtb (measure (font s) (cur ++ word ++ str " ")) W = false).
    { apply Qgtb_false. rewrite Hf, <- spaced_one.
      apply (Hfit 1%nat). simpl. lia. }
    rewrite H1. cbn [andb].
    rewrite IH.
    + rewrite <- spaced_one, <- app_assoc, <- spaced_app. reflexivity.
    + exact Hf.
    + intros j Hj. rewrite <- spaced_one, <- app_assoc, <- spaced_app.
      apply (Hfit (S j)). simpl. lia.
Qed.

End WrapGroups.

(** X3: the word wrap never breaks inside a token: its fragments are
    consecutive, non-empty groups of whole tokens, each token followed by
    one space, and the groups in order make up all the tokens of the
    text. *)
Theorem wrap_keeps_tokens_whole
        (measure : jsstring -> jsstring -> Q)
        (text : jsstring) (W : Q) (s : Surface) :
  exists groups : list (list jsstring),
    concat groups = split 32%N text
    /\ Forall (fun g => g <> []) groups
    /\ fst (wrapText measure text W s) = map spaced groups.
Proof.
  rewrite wrapText_lines.
  destruct (wrapWords_groups measure W (split 32%N text) [] [] s)
    as (gs & g & H1 & H2 & H3 & H4 & H5); [constructor|].
  change (map spaced []) with (@nil jsstring) in *.
  change (spaced []) with (@nil N) in *.
  exists (gs ++ [g]). split; [|split].
  - rewrite concat_app. simpl. now rewrite app_nil_r, H3.
  - apply Forall_app. split; [exact H4|]. constructor; [|constructor].
    apply H5. right. apply split_not_nil.
  - rewrite H1, H2, map_app. reflexivity.
Qed.

(** X4: when every test line fits (the first [j] tokens, spaced, measure
    at most [W] for every [j]), the word wrap returns one fragment: the
    text and a space. *)
Theorem wrap_one_fragment_when_all_fits
        (measure : jsstring -> jsstring -> Q)
        (text : jsstring) (W : Q) (s : Surface) :
  (forall j, (1 <= j <= length (split 32%N text))%nat ->
             (measure (font s) (spaced (firstn j (split 32%N text))) <= W)%Q) ->
  fst (wrapText measure text W s) = [text ++ str " "].
Proof.
  intro Hfit. rewrite wrapText_lines.
  rewrite (wrapWords_fits measure W (font s) (split 32%N text) [] [] s eq_refl Hfit).
  simpl. unfold spaced.
  rewrite concat_spaced by apply split_not_nil.
  now rewrite join_split.
Qed.

Lemma wrap_one_fragment_when_all_fits_witness :
  fst (wrapText sampleMeasure (str "ab cd") (inject_Z maxWidth) fresh)
  = [str "ab cd" ++ str " "].
Proof.
  apply wrap_one_fragment_when_all_fits.
  intros j Hj.
  assert (Hc : j = 1%nat \/ j = 2%nat) by (vm_compute in Hj; lia).
  destruct Hc as [-> | ->]; vm_compute; discriminate.
Defined.

(** X5: the word wrap only measures: it makes one [measureText] call for
    each token and no other call, and leaves font and fill style as they
    were. *)
Theorem wrap_measures_once_per_token
        (measure : jsstring -> jsstring -> Q)
        (text : jsstring) (W : Q) (s : Surface) :
  font (snd (wrapText measure text W s)) = font s
  /\ fillStyle (snd (wrapText measure text W s)) = fillStyle s
  /\ exists measured,
      calls (snd (wrapText measure text W s)) = calls s ++ map MeasureText measured
      /\ length measured = length (split 32%N text).
Proof.
  rewrite wrapText_surface.
  apply (wrapWords_calls measure (split 32%N text) W [] [] s).
Qed.

(* ================================================================== *)
(** ** Rendering a page: what is drawn, and where *)
(* ================================================================== *)

Lemma takeWhile_app_all {A : Type} (f : A -> bool) (l1 l2 : list A) :
  forallb f l1 = true -> takeWhile f (l1 ++ l2) = l1 ++ takeWhile f l2.
Proof.
  induction l1 as [|a l1 IH]; simpl; intro H; [reflexivity|].
  apply andb_true_iff in H as [Ha Hl]. rewrite Ha, IH by exact Hl. reflexivity.
Qed.

Lemma takeWhile_forallb {A : Type} (f : A -> bool) (l : list A) :
  forallb f (takeWhile f l) = true.
Proof.
  induction l as [|a l IH]; simpl; [reflexivity|].
  destruct (f a) eqn:E; simpl; [now rewrite E|reflexivity].
Qed.


Lemma fillTexts_app (a b : list Call) : fillTexts (a ++ b) = fillTexts a ++ fillTexts b.
Proof. apply filter_app. Qed.

Lemma stepped_lower (cs : list Call) (y y0 : Z) :
  y0 <= y -> stepped y cs -> stepped y0 cs.
Proof.
  destruct cs as [|c cs]; simpl; [tauto|].
  destruct c; try tauto. intros Hy (Hx & Hle & Hs). repeat split; auto. lia.
Qed.

Lemma stepped_placeLines (lines : list jsstring) :
  forall (y : Z) (tail : list Call),
    stepped (y + lineHeight * Z.of_nat (length lines)) tail ->
    stepped y (placeLines lines y ++ tail).
Proof.
  induction lines as [|line rest IH]; intros y tail Ht.
  - cbn [placeLines app]. eapply stepped_lower; [|exact Ht]. simpl. lia.
  - cbn [placeLines app stepped]. split; [reflexivity|]. split; [lia|].
    apply IH. replace (y + lineHeight + lineHeight * Z.of_nat (length rest))
      with (y + lineHeight * Z.of_nat (length (line :: rest))); [exact Ht|].
    cbn [length]. lia.
Qed.

Lemma stepped_takeWhile (f : Call -> bool) (cs : list Call) :
  forall y, stepped y cs -> stepped y (takeWhile f cs).
Proof.
  induction cs as [|c cs IH]; intros y H; simpl; [exact I|].
  destruct (f c); [|exact I].
  destruct c; simpl in *; try contradiction.
  destruct H as (Hx & Hy & Hs). auto.
Qed.


(** Texts one line height apart above the boundary: only so many fit. *)
Lemma stepped_count (cs : list Call) :
  forall y, stepped y cs -> forallb onCanvas cs = true ->
            lineHeight * Z.of_nat (length cs)
            <= Z.max 0 (height - 100 - y + lineHeight).
Proof.
  induction cs as [|c cs IH]; intros y Hs Hok.
  - simpl. lia.
  - destruct c; simpl in Hs; try contradiction.
    destruct Hs as (_ & Hy & Hs).
    simpl in Hok. apply andb_true_iff in Hok as [Hc Hok].
    apply Z.leb_le in Hc.
    specialize (IH _ Hs Hok).
    cbn [length]. rewrite Nat2Z.inj_succ.
    unfold lineHeight, height in *. lia.
Qed.

Section LayoutFacts.

Variable measure : jsstring -> jsstring -> Q.
Variable encode : list Call -> jsstring.

(** The fragments depend on the context through its font only. *)
Lemma wrapWords_font_only (W : Q) (words : list jsstring) :
  forall (lines : list jsstring) (cur : jsstring) (s s' : Surface),
    font s = font s' ->
    fst (wrapWords measure words W lines cur s)
    = fst (wrapWords measure words W lines cur s').
Proof.
  induction words as [|word rest IH]; intros lines cur s s' Hf; [reflexivity|].
  rewrite !wrapWords_step, Hf.
  destruct (Qgtb _ W && _); apply IH; exact Hf.
Qed.

Lemma wrapText_fragmentsUnder (paragraph : jsstring) (s : Surface) :
  fst (wrapText measure paragraph (inject_Z maxWidth) s)
  = fragmentsUnder measure (font s) paragraph.
Proof.
  unfold fragmentsUnder. rewrite !wrapText_lines.
  now rewrite (wrapWords_font_only _ _ [] [] s (mkSurface (font s) defaultFillStyle [])).
Qed.

Lemma wrapText_font (text : jsstring) (W : Q) (s : Surface) :
  font (snd (wrapText measure text W s)) = font s.
Proof.
  rewrite wrapText_surface.
  apply (wrapWords_calls measure (split 32%N text) W [] [] s).
Qed.

Lemma wrapText_fillTexts (text : jsstring) (W : Q) (s : Surface) :
  fillTexts (calls (snd (wrapText measure text W s))) = fillTexts (calls s).
Proof.
  destruct (wrapText_calls measure text W s) as (t & ms & Hc).
  rewrite Hc. apply fillTexts_measured.
Qed.


(** The inner loop against the layout: it draws the fragments as placed,
    all of them, or up to the first one below the boundary, and then the
    cursor is below the boundary too. *)
Lemma drawLines_layout (lines : list jsstring) :
  forall (y : Z) (s : Surface),
    font (snd (drawLines lines y s)) = font s
    /\ exists drawn,
        fillTexts (calls (snd (drawLines lines y s))) = fillTexts (calls s) ++ drawn
        /\ ((fst (drawLines lines y s) = y + lineHeight * Z.of_nat (length lines)
             /\ forall tail, takeWhile onCanvas (placeLines lines y ++ tail)
                             = drawn ++ takeWhile onCanvas tail)
            \/ (height - 100 < fst (drawLines lines y s)
                /\ forall tail, takeWhile onCanvas (placeLines lines y ++ tail)
                                = drawn)).
Proof.
  induction lines as [|line rest IH]; intros y s.
  - simpl. split; [reflexivity|]. exists []. rewrite app_nil_r.
    split; [reflexivity|]. left. split; [lia|reflexivity].
  - rewrite drawLines_step.
    destruct (Z.gtb_spec y (height - 100)) as [Hgt|Hle].
    + cbn [fst snd]. split; [reflexivity|]. exists []. rewrite app_nil_r.
      split; [reflexivity|]. right. split; [exact Hgt|].
      intro tail. cbn [placeLines app takeWhile onCanvas].
      destruct (Z.leb_spec y (height - 100)); [lia|reflexivity].
    + destruct (IH (y + lineHeight) (record (FillText line margin y) s))
        as (Hf & drawn & Hd & Hcase).
      split; [exact Hf|].
      exists (FillText line margin y :: drawn). split.
      * rewrite Hd. cbn [record calls]. rewrite fillTexts_app.
        simpl. now rewrite <- app_assoc.
      * assert (Hon : forall tail,
                   takeWhile onCanvas (placeLines (line :: rest) y ++ tail)
                   = FillText line margin y
                     :: takeWhile onCanvas (placeLines rest (y + lineHeight) ++ tail)).
        { intro tail. cbn [placeLines app takeWhile onCanvas].
          destruct (Z.leb_spec y (height - 100)); [reflexivity|lia]. }
        destruct Hcase as [[Hy Ht]|[Hy Ht]].
        -- left. split.
           ++ rewrite Hy. cbn [length]. lia.
           ++ intro tail. now rewrite Hon, Ht.
        -- right. split; [exact Hy|].
           intro tail. now rewrite Hon, Ht.
Qed.

(** The body loop against the layout: what it draws is the layout up to
    the first fragment below the boundary. *)
Lemma drawParagraphs_layout (page : PageContent) (paragraphs : list jsstring) :
  forall (y : Z) (s : Surface),
    font s = bodyFont ->
    fillTexts (calls (snd (drawParagraphs measure page paragraphs y s)))
    = fillTexts (calls s) ++ takeWhile onCanvas (layout measure page paragraphs y).
Proof.
  induction paragraphs as [|paragraph rest IH]; intros y s Hf.
  - simpl. now rewrite app_nil_r.
  - rewrite drawParagraphs_step. cbn [layout]. unfold skipped.
    destruct (strictEq paragraph (title page) && (pageNumber page =? 1));
      [now apply IH|]. cbv zeta.
    rewrite wrapText_fragmentsUnder, Hf.
    set (lines := fragmentsUnder measure bodyFont paragraph).
    set (s1 := snd (wrapText measure paragraph (inject_Z maxWidth) s)).
    assert (Hf1 : font s1 = bodyFont) by (unfold s1; now rewrite wrapText_font).
    assert (Hc1 : fillTexts (calls s1) = fillTexts (calls s))
      by apply wrapText_fillTexts.
    destruct (drawLines_layout lines y s1) as (Hf2 & drawn & Hd & Hcase).
    destruct Hcase as [[Hy Ht]|[Hy Ht]].
    + rewrite IH by congruence.
      rewrite Hd, Hc1, Hy, Ht, <- app_assoc. reflexivity.
    + rewrite drawParagraphs_past by lia.
      rewrite Hd, Hc1, Ht. reflexivity.
Qed.

Lemma layout_stepped (page : PageContent) (paragraphs : list jsstring) :
  forall y, stepped y (layout measure page paragraphs y).
Proof.
  induction paragraphs as [|paragraph rest IH]; intro y; [exact I|].
  cbn [layout]. destruct (skipped page paragraph); [apply IH|]. cbv zeta.
  apply stepped_placeLines.
  eapply stepped_lower; [|apply IH]. lia.
Qed.


(** All the texts of a rendered page: the title, the layout of the body
    up to the boundary, the footer. *)
Lemma page_fillTexts (page : PageContent) (fileName : jsstring) :
  fillTexts (snd (generateSinglePageImage measure encode true page fileName))
  = FillText (title page) margin (margin + 50)
    :: takeWhile onCanvas (layout measure page (content page) (margin + 50 + 100))
    ++ [FillText (footerText page) (width - 100) (height - 50)].
Proof.
  unfold generateSinglePageImage.
  destruct (drawPage_body measure encode page) as [Hc _]. cbv zeta in Hc.
  destruct (drawPage measure encode page fresh) as [imageData s1]. cbn [snd] in *.
  rewrite Hc, fillTexts_app, drawParagraphs_layout by reflexivity.
  reflexivity.
Qed.

End LayoutFacts.

(** X6: on a rendered page the body holds at most 23 fragments; they are
    all drawn at the left margin, the first at 210 or below, each at least
    one line height below the one before. *)
Theorem page_body_at_most_23_fragments
        (measure : jsstring -> jsstring -> Q) (encode : list Call -> jsstring)
        (page : PageContent) (fileName : jsstring) :
  exists body,
    fillTexts (snd (generateSinglePageImage measure encode true page fileName))
    = FillText (title page) margin 110
      :: body ++ [FillText (footerText page) 980 1390]
    /\ (length body <= 23)%nat
    /\ stepped 210 body.
Proof.
  exists (takeWhile onCanvas (layout measure page (content page) (margin + 50 + 100))).
  split; [apply page_fillTexts|].
  assert (Hs : stepped 210 (takeWhile onCanvas
                              (layout measure page (content page) (margin + 50 + 100))))
    by (apply stepped_takeWhile, (layout_stepped measure page (content page) 210)).
  split; [|exact Hs].
  pose proof (stepped_count _ _ Hs (takeWhile_forallb _ _)) as Hc.
  unfold lineHeight, height in Hc. lia.
Qed.

(** X7: the texts drawn on a page are the title, then the layout of the
    body (the fragments of the paragraphs that are not skipped, one line
    height apart, twenty more between paragraphs) up to the first
    fragment that would fall below the boundary, then the footer. *)
Theorem page_draws_layout_up_to_boundary
        (measure : jsstring -> jsstring -> Q) (encode : list Call -> jsstring)
        (page : PageContent) (fileName : jsstring) :
  fillTexts (snd (generateSinglePageImage measure encode true page fileName))
  = FillText (title page) margin 110
    :: takeWhile onCanvas (layout measure page (content page) 210)
    ++ [FillText (footerText page) 980 1390].
Proof. apply page_fillTexts. Qed.



(* ================================================================== *)
(** ** The batch and the share command *)
(* ================================================================== *)

Section BatchFacts.

Variable measure : jsstring -> jsstring -> Q.
Variable encode : list Call -> jsstring.
Variable acquire : nat -> bool.

(** The loop adds at most one image for each page. *)
Lemma renderPages_length (ps : list PageContent) (fileName : jsstring) :
  forall (k : nat) (images : list jsstring),
    (length (renderPages measure encode acquire k ps fileName images)
     <= length images + length ps)%nat.
Proof.
  induction ps as [|page rest IH]; intros k images; cbn [renderPages length].
  - lia.
  - destruct (fst (generateSinglePageImage measure encode (acquire k) page fileName))
      as [imageData|].
    + destruct (truthy imageData).
      * specialize (IH (S k) (images ++ [imageData])).
        rewrite length_app in IH. simpl in IH. lia.
      * specialize (IH (S k) images). lia.
    + specialize (IH (S k) images). lia.
Qed.

Lemma generateRedNoteImages_length (text fileName : jsstring) :
  Z.of_nat (length (generateRedNoteImages measure encode acquire text fileName))
  <= ceilLinesPerPage (length (nonBlankLines (Regex.replaceFrontMatter text))).
Proof.
  unfold generateRedNoteImages. cbv zeta.
  pose proof (renderPages_length
                (splitContentIntoPages (Regex.replaceFrontMatter text))
                fileName 0 []) as Hlen.
  destruct (splitContentIntoPages_paginated (Regex.replaceFrontMatter text))
    as [_ _ _ _ _ Hc _].
  simpl in Hlen. lia.
Qed.

Lemma generateRedNoteImages_blank (text fileName : jsstring) :
  nonBlankLines (Regex.replaceFrontMatter text) = [] ->
  generateRedNoteImages measure encode acquire text fileName = [].
Proof.
  intro Hnb. unfold generateRedNoteImages. cbv zeta.
  apply splitContentIntoPages_nil in Hnb. rewrite Hnb. reflexivity.
Qed.

End BatchFacts.

(** X9: whatever the browser does, the batch returns at most one image
    for each page, that is at most the ceiling of [N / 12] images for [N]
    non-blank lines left after the stripping; with no such line it
    returns none. *)
Theorem batch_at_most_one_image_per_page
        (measure : jsstring -> jsstring -> Q) (encode : list Call -> jsstring)
        (acquire : nat -> bool) (text fileName : jsstring) :
  (exists T : Z,
      12 * (T - 1)
      < Z.of_nat (length (nonBlankLines (Regex.replaceFrontMatter text)))
      <= 12 * T
      /\ Z.of_nat (length (generateRedNoteImages measure encode acquire
                                                 text fileName)) <= T)
  /\ (nonBlankLines (Regex.replaceFrontMatter text) = [] ->
      generateRedNoteImages measure encode acquire text fileName = []).
Proof.
  split.
  - exists (ceilLinesPerPage
              (length (nonBlankLines (Regex.replaceFrontMatter text)))).
    split; [apply ceilLinesPerPage_bounds|apply generateRedNoteImages_length].
  - apply generateRedNoteImages_blank.
Qed.

Lemma batch_at_most_one_image_per_page_witness :
  generateRedNoteImages sampleMeasure sampleEncode sampleAcquire
                        (str "---" ++ [10%N] ++ str "a: b" ++ [10%N]
                             ++ str "---" ++ [10%N] ++ str "  " ++ [10%N])
                        (str "note")
  = [].
Proof.
  apply (proj2 (batch_at_most_one_image_per_page
                  sampleMeasure sampleEncode sampleAcquire _ (str "note"))).
  vm_compute. reflexivity.
Defined.

(** X10: when every context is acquired (and [toDataURL] gives data
    URLs), the batch returns exactly one image for each page, in page
    order: the ceiling of [N / 12] images for [N] non-blank lines. *)
Theorem batch_complete_when_all_acquired
        (measure : jsstring -> jsstring -> Q) (encode : list Call -> jsstring)
        (acquire : nat -> bool) (text fileName : jsstring)
        (encode_data_url : forall cs, encode cs <> [])
        (all_acquired : forall k, acquire k = true) :
  generateRedNoteImages measure encode acquire text fileName
  = map (fun page => fst (drawPage measure encode page fresh))
        (splitContentIntoPages (Regex.replaceFrontMatter text))
  /\ exists T : Z,
      12 * (T - 1)
      < Z.of_nat (length (nonBlankLines (Regex.replaceFrontMatter text)))
      <= 12 * T
      /\ Z.of_nat (length (generateRedNoteImages measure encode acquire
                                                 text fileName)) = T.
Proof.
  assert (Hall : generateRedNoteImages measure encode acquire text fileName
                 = map (fun page => fst (drawPage measure encode page fresh))
                       (splitContentIntoPages (Regex.replaceFrontMatter text))).
  { unfold generateRedNoteImages. cbv zeta.
    rewrite (renderPages_images measure encode acquire encode_data_url).
    cbn [app].
    generalize 0%nat.
    induction (splitContentIntoPages (Regex.replaceFrontMatter text))
      as [|page rest IH]; intro k; [reflexivity|].
    cbn [length seq combine filter fst]. rewrite all_acquired.
    cbn [map snd]. now rewrite IH. }
  split; [exact Hall|].
  exists (ceilLinesPerPage
            (length (nonBlankLines (Regex.replaceFrontMatter text)))).
  split; [apply ceilLinesPerPage_bounds|].
  rewrite Hall, length_map.
  apply (splitContentIntoPages_paginated (Regex.replaceFrontMatter text)).
Qed.

Lemma batch_complete_when_all_acquired_witness :
  (forall cs, sampleEncode cs <> [])
  /\ (forall k : nat, (fun _ : nat => true) k = true)
  /\ generateRedNoteImages sampleMeasure sampleEncode (fun _ => true)
                           thirteenLines []
     = map (fun page => fst (drawPage sampleMeasure sampleEncode page fresh))
           (splitContentIntoPages (Regex.replaceFrontMatter thirteenLines)).
Proof.
  split; [exact sampleEncode_data_url|]. split; [reflexivity|].
  apply (proj1 (batch_complete_when_all_acquired
                  sampleMeasure sampleEncode (fun _ => true) thirteenLines []
                  sampleEncode_data_url (fun _ => eq_refl))).
Defined.

(** X11: [createRedNoteShare] gives the notice exactly when the file name
    is undefined or empty; and when it opens the preview, the file has a
    name, the images are those of the batch, there is at least one of
    them, and the document has a non-blank line after the stripping. *)
Theorem share_opens_preview_only_with_images
        (measure : jsstring -> jsstring -> Q) (encode : list Call -> jsstring)
        (acquire : nat -> bool) (text : jsstring) (fileName : option jsstring) :
  (createRedNoteShare measure encode acquire text fileName
   = NoticeShown saveFirstNotice
   <-> (fileName = None \/ fileName = Some []))
  /\ (forall images name,
         createRedNoteShare measure encode acquire text fileName
         = PreviewOpened images name ->
         fileName = Some name
         /\ name <> []
         /\ images = generateRedNoteImages measure encode acquire text name
         /\ images <> []
         /\ nonBlankLines (Regex.replaceFrontMatter text) <> []).
Proof.
  unfold createRedNoteShare. split.
  - destruct fileName as [[|c name]|]; cbn [truthy negb].
    + split; auto.
    + cbv zeta.
      destruct (length _ =? 0)%nat; split; try discriminate;
        intros [H|H]; discriminate.
    + split; auto.
  - intros images name H.
    destruct fileName as [[|c fn]|]; cbn [truthy negb] in H; try discriminate.
    cbv zeta in H.
    destruct (Nat.eqb_spec
                (length (generateRedNoteImages measure encode acquire text (c :: fn)))
                0) as [Hz|Hnz]; [discriminate|].
    injection H as <- <-.
    repeat split; try discriminate.
    + intro Hnil. rewrite Hnil in Hnz. now apply Hnz.
    + intro Hnb. apply Hnz.
      now rewrite (generateRedNoteImages_blank measure encode acquire _ _ Hnb).
Qed.

Lemma share_opens_preview_only_with_images_witness :
  createRedNoteShare sampleMeasure sampleEncode sampleAcquire thirteenLines (Some [])
  = NoticeShown saveFirstNotice.
Proof.
  apply (proj1 (share_opens_preview_only_with_images
                  sampleMeasure sampleEncode sampleAcquire thirteenLines (Some []))).
  right. reflexivity.
Defined.

(** The share command on the sample browser: thirteen lines give two
    pages, the first context fails, and the preview opens on the image of
    the second page. *)
Example share_thirteen_lines :
  createRedNoteShare sampleMeasure sampleEncode sampleAcquire thirteenLines
                     (Some (str "note"))
  = PreviewOpened [str "data:13"] (str "note").
Proof. vm_compute. reflexivity. Qed.

(* ================================================================== *)
(** ** The preview *)
(* ================================================================== *)

Lemma digits_inj (d1 : Decimal.uint) :
  forall d2, digits d1 = digits d2 -> d1 = d2.
Proof.
  induction d1; intros d2 H; destruct d2; simpl in H;
    try discriminate H; try reflexivity;
    injection H as H; f_equal; now apply IHd1.
Qed.

Lemma digits_no_sign (d : Decimal.uint) (l : jsstring) : digits d <> 45%N :: l.
Proof. destruct d; simpl; discriminate. Qed.

(** Different numbers are written differently. *)
Lemma numberToString_inj (a b : Z) : numberToString a = numberToString b -> a = b.
Proof.
  unfold numberToString. intro H. apply DecimalZ.to_int_inj.
  destruct (Z.to_int a) as [da|da], (Z.to_int b) as [db|db].
  - f_equal. now apply digits_inj.
  - exfalso. exact (digits_no_sign _ _ H).
  - exfalso. symmetry in H. exact (digits_no_sign _ _ H).
  - injection H as H. f_equal. now apply digits_inj.
Qed.

Lemma downloadName_inj (fileName : jsstring) (a b : Z) :
  ImagePreviewModal.downloadName fileName a
  = ImagePreviewModal.downloadName fileName b -> a = b.
Proof.
  unfold ImagePreviewModal.downloadName. intro H.
  apply app_inv_head in H. apply app_inv_head in H.
  apply app_inv_tail in H. now apply numberToString_inj.
Qed.

Lemma NoDup_map_inj {A B : Type} (f : A -> B) (l : list A) :
  (forall a b, f a = f b -> a = b) -> NoDup l -> NoDup (map f l).
Proof.
  intros Hinj Hnd. induction Hnd as [|a l Hnotin Hnd IH]; simpl; constructor.
  - intro Hin. apply in_map_iff in Hin as (b & Hb & Hin).
    apply Hinj in Hb. subst b. contradiction.
  - exact IH.
Qed.

Module PreviewFacts.

Import ImagePreviewModal.

(** The [forEach] of [saveAllImages] only adds downloads, one for each
    entry. *)
Lemma saveEach_fields (entries : list (nat * jsstring)) :
  forall acc : Modal,
    let m' := fold_left (fun acc entry =>
                           saveImage (Some (snd entry)) (Z.of_nat (fst entry) + 1) acc)
                        entries acc in
    images m' = images acc
    /\ fileName m' = fileName acc
    /\ currentIndex m' = currentIndex acc
    /\ img m' = img acc
    /\ buttons m' = buttons acc
    /\ notices m' = notices acc
    /\ downloads m'
       = downloads acc
         ++ map (fun entry => (downloadName (fileName acc) (Z.of_nat (fst entry) + 1),
                               Some (snd entry)))
                entries.
Proof.
  induction entries as [|entry rest IH]; intro acc; cbv zeta.
  - simpl. rewrite app_nil_r. repeat split; reflexivity.
  - cbn [fold_left map].
    destruct (IH (saveImage (Some (snd entry)) (Z.of_nat (fst entry) + 1) acc))
      as (H1 & H2 & H3 & H4 & H5 & H6 & H7).
    rewrite H1, H2, H3, H4, H5, H6, H7. cbn [saveImage images fileName currentIndex
                                             img buttons notices downloads].
    rewrite <- app_assoc. repeat split; reflexivity.
Qed.

Lemma saveAllImages_view (m : Modal) :
  images (saveAllImages m) = images m
  /\ currentIndex (saveAllImages m) = currentIndex m
  /\ img (saveAllImages m) = img m
  /\ buttons (saveAllImages m) = buttons m
  /\ fileName (saveAllImages m) = fileName m.
Proof.
  unfold saveAllImages. cbv zeta.
  cbn [images fileName currentIndex img buttons].
  destruct (saveEach_fields (combine (seq 0 (length (images m))) (images m)) m)
    as (H1 & H2 & H3 & H4 & H5 & _).
  auto.
Qed.

Lemma previewInOrder_view (m m' : Modal) :
  images m' = images m ->
  currentIndex m' = currentIndex m ->
  img m' = img m ->
  buttons m' = buttons m ->
  previewInOrder m -> previewInOrder m'.
Proof.
  unfold previewInOrder. cbv zeta. intros -> -> -> ->. auto.
Qed.

Lemma item_inside (array : list jsstring) (i : Z) :
  0 <= i -> item array i = nth_error array (Z.to_nat i).
Proof.
  intro Hi. unfold item. destruct (Z.ltb_spec i 0); [lia|reflexivity].
Qed.

Lemma nth_error_inside (array : list jsstring) (i : Z) :
  0 <= i < Z.of_nat (length array) -> nth_error array (Z.to_nat i) <> None.
Proof. intro Hi. apply nth_error_Some. lia. Qed.

(** The preview as [onOpen] leaves it. *)
Lemma onOpen_inOrder (imgs : list jsstring) (fn : jsstring) :
  imgs <> [] -> previewInOrder (onOpen (construct imgs fn)).
Proof.
  intro Hne. unfold previewInOrder, onOpen, displayCurrentImage, construct.
  cbv zeta. cbn [images fileName currentIndex img buttons].
  assert (Hlen : 0 < Z.of_nat (length imgs))
    by (destruct imgs; [contradiction|simpl; lia]).
  split; [lia|]. split; [now rewrite item_inside by lia|].
  split; [apply nth_error_inside; lia|reflexivity].
Qed.

(** A move to an index inside the images keeps the preview in order. *)
Lemma move_inOrder (m : Modal) (i : Z) :
  previewInOrder m ->
  (Z.of_nat (length (images m)) >? 1) = true ->
  0 <= i < Z.of_nat (length (images m)) ->
  previewInOrder (updateButtons (displayCurrentImage (moveTo i m))).
Proof.
  unfold previewInOrder. cbv zeta. intros (_ & _ & _ & Hb) Hnav Hi.
  rewrite Hnav in Hb.
  unfold updateButtons, displayCurrentImage, moveTo.
  cbn [images fileName currentIndex img buttons]. rewrite Hb, Hnav.
  split; [exact Hi|]. split; [now rewrite item_inside by lia|].
  split; [apply nth_error_inside; exact Hi|reflexivity].
Qed.

(** No click takes the preview out of order. *)
Lemma click_inOrder (k : nat) (m : Modal) :
  previewInOrder m -> previewInOrder (click k m).
Proof.
  intro Hin. pose proof Hin as (Hi & _ & _ & Hb). cbv zeta in Hi, Hb.
  unfold click. rewrite Hb.
  destruct (Z.of_nat (length (images m)) >? 1) eqn:Hnav.
  - destruct k as [|[|[|k]]]; cbn [nth_error disabled onClick].
    + destruct (Z.eqb_spec (currentIndex m) 0); [exact Hin|].
      cbn [handle]. apply move_inOrder; [exact Hin|exact Hnav|lia].
    + destruct (Z.eqb_spec (currentIndex m) (Z.of_nat (length (images m)) - 1));
        [exact Hin|].
      cbn [handle]. apply move_inOrder; [exact Hin|exact Hnav|lia].
    + cbn [handle].
      destruct (saveAllImages_view m) as (H1 & H2 & H3 & H4 & _).
      now apply (previewInOrder_view m).
    + destruct k; exact Hin.
  - destruct k as [|k]; cbn [nth_error disabled onClick].
    + cbn [handle]. now apply (previewInOrder_view m).
    + destruct k; exact Hin.
Qed.

Lemma click_keeps (k : nat) (m : Modal) :
  images (click k m) = images m /\ fileName (click k m) = fileName m.
Proof.
  unfold click. destruct (nth_error (buttons m) k) as [b|]; [|auto].
  destruct (disabled b); [auto|].
  destruct (onClick b); cbn [handle]; try (split; reflexivity).
  destruct (saveAllImages_view m) as (H1 & _ & _ & _ & H5). auto.
Qed.

End PreviewFacts.

(** X12: a preview opened on at least one image stays in order under any
    clicks on its buttons: the index never leaves the images, the image
    shown is the one at the index, Previous is disabled exactly at the
    first image and Next exactly at the last, and the images and the file
    name are never changed. *)
Theorem preview_index_stays_inside
        (imgs : list jsstring) (fn : jsstring) (clicks : list nat) :
  imgs <> [] ->
  previewInOrder
    (fold_left (fun m k => ImagePreviewModal.click k m) clicks
               (ImagePreviewModal.onOpen (ImagePreviewModal.construct imgs fn)))
  /\ ImagePreviewModal.images
       (fold_left (fun m k => ImagePreviewModal.click k m) clicks
                  (ImagePreviewModal.onOpen (ImagePreviewModal.construct imgs fn)))
     = imgs
  /\ ImagePreviewModal.fileName
       (fold_left (fun m k => ImagePreviewModal.click k m) clicks
                  (ImagePreviewModal.onOpen (ImagePreviewModal.construct imgs fn)))
     = fn.
Proof.
  intro Hne.
  pose proof (PreviewFacts.onOpen_inOrder imgs fn Hne) as Hin.
  assert (Hi : ImagePreviewModal.images
                 (ImagePreviewModal.onOpen (ImagePreviewModal.construct imgs fn))
               = imgs) by reflexivity.
  assert (Hf : ImagePreviewModal.fileName
                 (ImagePreviewModal.onOpen (ImagePreviewModal.construct imgs fn))
               = fn) by reflexivity.
  revert Hin Hi Hf.
  generalize (ImagePreviewModal.onOpen (ImagePreviewModal.construct imgs fn)).
  induction clicks as [|k rest IH]; intros m Hin Hi Hf; [auto|].
  cbn [fold_left]. apply IH.
  - now apply PreviewFacts.click_inOrder.
  - now rewrite (proj1 (PreviewFacts.click_keeps k m)).
  - now rewrite (proj2 (PreviewFacts.click_keeps k m)).
Qed.

Lemma preview_index_stays_inside_witness :
  [str "a"; str "b"; str "c"] <> []
  /\ ImagePreviewModal.currentIndex
       (fold_left (fun m k => ImagePreviewModal.click k m) [0; 1; 1; 1; 0; 2]%nat
                  (ImagePreviewModal.onOpen
                     (ImagePreviewModal.construct [str "a"; str "b"; str "c"]
                                                  (str "note"))))
     = 1
  /\ previewInOrder
       (fold_left (fun m k => ImagePreviewModal.click k m) [0; 1; 1; 1; 0; 2]%nat
                  (ImagePreviewModal.onOpen
                     (ImagePreviewModal.construct [str "a"; str "b"; str "c"]
                                                  (str "note")))).
Proof.
  split; [discriminate|]. split; [vm_compute; reflexivity|].
  apply (preview_index_stays_inside [str "a"; str "b"; str "c"] (str "note")
                                    [0; 1; 1; 1; 0; 2]%nat).
  discriminate.
Defined.

(** X13: [saveAllImages] hands the browser one download for each image,
    in order, each with the image as its content, under names made of
    the file name, the share label, the numbers 1, 2, ... and [.png]; no
    two of these names are the same; then it shows its notice, and it changes nothing else. *)
Theorem save_all_downloads_each_image_once (m : ImagePreviewModal.Modal) :
  exists added,
    ImagePreviewModal.downloads (ImagePreviewModal.saveAllImages m)
    = ImagePreviewModal.downloads m ++ added
    /\ map snd added = map Some (ImagePreviewModal.images m)
    /\ map fst added
       = map (fun i => ImagePreviewModal.downloadName
                         (ImagePreviewModal.fileName m) (Z.of_nat i))
             (seq 1 (length (ImagePreviewModal.images m)))
    /\ NoDup (map fst added)
    /\ ImagePreviewModal.notices (ImagePreviewModal.saveAllImages m)
       = ImagePreviewModal.notices m ++ [ImagePreviewModal.allSavedNotice]
    /\ ImagePreviewModal.images (ImagePreviewModal.saveAllImages m)
       = ImagePreviewModal.images m
    /\ ImagePreviewModal.currentIndex (ImagePreviewModal.saveAllImages m)
       = ImagePreviewModal.currentIndex m.
Proof.
  destruct (PreviewFacts.saveEach_fields
              (combine (seq 0 (length (ImagePreviewModal.images m)))
                       (ImagePreviewModal.images m)) m)
    as (H1 & H2 & H3 & H4 & H5 & H6 & H7). cbv zeta in *.
  assert (Hnames :
            forall (l : list jsstring) (k : nat),
              map fst (map (fun entry : nat * jsstring =>
                              (ImagePreviewModal.downloadName
                                 (ImagePreviewModal.fileName m)
                                 (Z.of_nat (fst entry) + 1),
                               Some (snd entry)))
                           (combine (seq k (length l)) l))
              = map (fun i => ImagePreviewModal.downloadName
                                (ImagePreviewModal.fileName m) (Z.of_nat i))
                    (seq (S k) (length l))).
  { induction l as [|a l IH]; intro k; [reflexivity|].
    cbn [length seq combine map fst]. rewrite IH. f_equal. f_equal. lia. }
  assert (Hdata :
            forall (l : list jsstring) (k : nat),
              map snd (map (fun entry : nat * jsstring =>
                              (ImagePreviewModal.downloadName
                                 (ImagePreviewModal.fileName m)
                                 (Z.of_nat (fst entry) + 1),
                               Some (snd entry)))
                           (combine (seq k (length l)) l))
              = map Some l).
  { induction l as [|a l IH]; intro k; [reflexivity|].
    cbn [length seq combine map snd]. now rewrite IH. }
  eexists. split; [|split; [|split; [|split; [|split; [|split]]]]].
  - unfold ImagePreviewModal.saveAllImages. cbv zeta.
    cbn [ImagePreviewModal.downloads]. exact H7.
  - apply Hdata.
  - apply Hnames.
  - rewrite Hnames. apply NoDup_map_inj; [|apply seq_NoDup].
    intros a b Hab. apply downloadName_inj in Hab. lia.
  - unfold ImagePreviewModal.saveAllImages. cbv zeta.
    cbn [ImagePreviewModal.notices]. now rewrite H6.
  - apply PreviewFacts.saveAllImages_view.
  - apply PreviewFacts.saveAllImages_view.
Qed.

(** The preview of one image has the single save button, and a click on
    it downloads the image under the name numbered 1. *)
Example single_image_saved_as_1 :
  ImagePreviewModal.downloads
    (ImagePreviewModal.click 0
       (ImagePreviewModal.onOpen
          (ImagePreviewModal.construct [str "data:13"] (str "note"))))
  = [(str "note" ++ ImagePreviewModal.shareLabel ++ str "1.png", Some (str "data:13"))].
Proof. vm_compute. reflexivity. Qed.

(** X14: the image a rendered page returns encodes the whole drawing:
    [toDataURL] is the last call, and it is given the canvas with the
    header, the body and the footer text already drawn. *)
Theorem page_image_encodes_whole_drawing
        (measure : jsstring -> jsstring -> Q) (encode : list Call -> jsstring)
        (page : PageContent) (fileName : jsstring) :
  exists body,
    snd (generateSinglePageImage measure encode true page fileName)
    = headerCalls page ++ body ++ footerCalls page
    /\ fst (generateSinglePageImage measure encode true page fileName)
       = Some (encode (headerCalls page ++ body ++ removelast (footerCalls page))).
Proof.
  unfold generateSinglePageImage.
  destruct (drawPage_body measure encode page) as [Hc Hi]. cbv zeta in Hc, Hi.
  destruct (drawPage measure encode page fresh) as [imageData s1].
  cbn [fst snd] in *.
  destruct (drawParagraphs_calls measure page (content page) (margin + 50 + 100)
              (mkSurface bodyFont (str "#333333") (headerCalls page)))
    as (_ & body & Hb & _).
  exists body. rewrite Hc, Hi, Hb. cbn [calls].
  rewrite <- !app_assoc. split; reflexivity.
Qed.
